(** * IoTConnect Relay client (client-module/c/iotc_relay_client.c)

    A shallow embedding of the C client library: the flat-key JSON codec,
    the transport resolver, the connection manager, the send path and the
    receive loop, followed by the properties of the specification that
    were checked against them.

    Conventions of the embedding.
    - A C string is the list of its characters up to, and without, the
      terminating NUL ([cstr]).  A pointer into a string is an offset.
    - [size_t] lengths are natural numbers.
    - A nullable pointer is an [option].
    - System calls are answered by an explicit environment; the descriptors
      the process holds open and the calls that matter to the specification
      (socket writes, closes, callback invocations) are kept in a [World]. *)

From Stdlib Require Import List Ascii String ZArith Lia Bool Arith.
From Stdlib Require Import DecimalString DecimalNat.
Import ListNotations.

Set Warnings "-abstract-large-number".

(** ** C strings and the libc functions the client uses *)

Module CLib.

Definition cstr := list ascii.

Definition lit (s : string) : cstr := list_ascii_of_string s.

(** JSON text written with apostrophes where the text has double quotes:
    [js "{'type':'register'}"] is the text [{"type":"register"}]. *)
Definition js (s : string) : cstr :=
  map (fun c => if Ascii.eqb c "'"%char then "034"%char else c) (lit s).

(** [strlen] is the length of the list. *)
Abbreviation strlen := (@List.length ascii) (only parsing).

Definition NUL : ascii := "000"%char.
Definition NL : ascii := "010"%char.
Definition TAB : ascii := "009"%char.
Definition SPACE : ascii := " "%char.
Definition DQ : ascii := "034"%char.

(** Equality of two strings, as [strcmp(a, b) == 0]. *)
Fixpoint streq (a b : cstr) : bool :=
  match a, b with
  | [], [] => true
  | x :: a', y :: b' => Ascii.eqb x y && streq a' b'
  | _, _ => false
  end.

(** [strncmp(a, b, n) == 0]: the first [n] characters agree, the
    terminator included when a string is shorter than [n]. *)
Definition strncmp_eq (a b : cstr) (n : nat) : bool :=
  streq (firstn n a) (firstn n b).

(** [strchr(s, c)] for a character [c] other than NUL: the offset of the
    first occurrence, or [None] for the null pointer. *)
Fixpoint strchr (s : cstr) (c : ascii) : option nat :=
  match s with
  | [] => None
  | a :: s' => if Ascii.eqb a c then Some 0 else option_map S (strchr s' c)
  end.

(** [strrchr(s, c)]: the offset of the last occurrence. *)
Fixpoint strrchr (s : cstr) (c : ascii) : option nat :=
  match s with
  | [] => None
  | a :: s' =>
      match strrchr s' c with
      | Some i => Some (S i)
      | None => if Ascii.eqb a c then Some 0 else None
      end
  end.

Fixpoint starts_with (p s : cstr) : bool :=
  match p, s with
  | [], _ => true
  | x :: p', y :: s' => Ascii.eqb x y && starts_with p' s'
  | _ :: _, [] => false
  end.

(** [strstr(h, n)]: the offset of the first occurrence of [n] in [h]. *)
Fixpoint strstr (h n : cstr) : option nat :=
  if starts_with n h then Some 0
  else match h with
       | [] => None
       | _ :: h' => option_map S (strstr h' n)
       end.

(** A character array read as a string: everything before the first NUL. *)
Fixpoint c_str (raw : list ascii) : cstr :=
  match raw with
  | [] => []
  | a :: raw' => if Ascii.eqb a NUL then [] else a :: c_str raw'
  end.

(** [strncpy(dst, src, n)] into zeroed storage of more than [n] bytes. *)
Definition strncpy (src : cstr) (n : nat) : cstr := firstn n src.

(** [strncat(dest, src, n)]: at most [n] characters of [src] are appended. *)
Definition strncat (dest src : cstr) (n : nat) : cstr := dest ++ firstn n src.

(** [snprintf(buf, size, ...)] where [full] is the complete formatted
    text: at most [size - 1] characters are stored. *)
Definition snprintf (size : nat) (full : cstr) : cstr := firstn (size - 1) full.

(** [isspace] in the C locale. *)
Definition isspace (c : ascii) : bool :=
  let n := nat_of_ascii c in
  (n =? 32) || ((9 <=? n) && (n <=? 13)).

Definition digit_of (c : ascii) : option Z :=
  let n := nat_of_ascii c in
  if (48 <=? n) && (n <=? 57) then Some (Z.of_nat (n - 48)) else None.

Fixpoint skip_spaces (s : cstr) : cstr :=
  match s with
  | [] => []
  | a :: s' => if isspace a then skip_spaces s' else s
  end.

Fixpoint atoi_digits (acc : Z) (s : cstr) : Z :=
  match s with
  | [] => acc
  | a :: s' =>
      match digit_of a with
      | Some d => atoi_digits (10 * acc + d) s'
      | None => acc
      end
  end.

(** [atoi]: leading white space, an optional sign, then the longest run of
    decimal digits; 0 when there is none.  (C leaves the result undefined
    when the value does not fit an [int]; the model keeps the exact value.) *)
Definition atoi (s : cstr) : Z :=
  match skip_spaces s with
  | [] => 0
  | a :: r =>
      if Ascii.eqb a "-"%char then (- atoi_digits 0 r)%Z
      else if Ascii.eqb a "+"%char then atoi_digits 0 r
      else atoi_digits 0 (a :: r)
  end.

End CLib.
Import CLib.

(** ** Constants of iotc_relay_client.h *)

Definition IOTC_RELAY_MAX_PATH : nat := 256.
Definition IOTC_RELAY_MAX_CLIENT_ID : nat := 64.
Definition IOTC_RELAY_BUFFER_SIZE : nat := 4096.

Definition IOTC_RELAY_SUCCESS : Z := 0.
Definition IOTC_RELAY_ERROR_SOCKET : Z := -1.
Definition IOTC_RELAY_ERROR_CONNECT : Z := -2.
Definition IOTC_RELAY_ERROR_SEND : Z := -3.
Definition IOTC_RELAY_ERROR_RECV : Z := -4.
Definition IOTC_RELAY_ERROR_JSON : Z := -5.
Definition IOTC_RELAY_ERROR_DISCONNECTED : Z := -6.
Definition IOTC_RELAY_ERROR_INVALID_PARAM : Z := -7.

(** ** Envelope codec *)

Module Codec.

(** A key or a string value between double quotes. *)
Definition quoted (s : cstr) : cstr := DQ :: s ++ [DQ].

Fixpoint skip_blanks (s : cstr) : cstr :=
  match s with
  | [] => []
  | a :: s' =>
      if Ascii.eqb a SPACE || Ascii.eqb a TAB then skip_blanks s' else s
  end.

(** The scan of an unquoted token, which stops at the end of the string,
    at a comma, at a closing brace or at a newline: the number of
    characters before that terminator. *)
Fixpoint token_len (s : cstr) : nat :=
  match s with
  | [] => 0
  | a :: s' =>
      if Ascii.eqb a ","%char || Ascii.eqb a "}"%char || Ascii.eqb a NL
      then 0 else S (token_len s')
  end.

(** Removal of the blanks at the end of a string. *)
Fixpoint rtrim (s : cstr) : cstr :=
  match s with
  | [] => []
  | a :: s' =>
      match rtrim s' with
      | [] => if Ascii.eqb a SPACE || Ascii.eqb a TAB then [] else [a]
      | t => a :: t
      end
  end.

(** The trimming loop that walks back from the last character while
    [p > value] and the character is a blank: trailing blanks are cut, the
    first character is never touched. *)
Definition trim_value (v : cstr) : cstr :=
  match v with
  | [] => []
  | a :: v' => a :: rtrim v'
  end.

(** [find_json_value(json, key)]; [None] is the null pointer.  The results
    of [malloc] are taken to be non-null. *)
Definition find_json_value (json key : cstr) : option cstr :=
  let search := snprintf 128 (quoted key ++ lit ":") in
  match strstr json search with
  | None => None
  | Some off =>
      let start := skip_blanks (skipn (off + strlen search) json) in
      match start with
      | a :: start' =>
          if Ascii.eqb a DQ then
            match strchr start' DQ with
            | None => None
            | Some len => Some (strncpy start' len)
            end
          else
            Some (trim_value (strncpy start (token_len start)))
      | [] => Some (trim_value (strncpy start (token_len start)))
      end
  end.

Definition telemetry_text (client_id data : cstr) : cstr :=
  lit "{" ++ quoted (lit "type") ++ lit ":" ++ quoted (lit "telemetry")
  ++ lit "," ++ quoted (lit "client_id") ++ lit ":" ++ quoted client_id
  ++ lit "," ++ quoted (lit "data") ++ lit ":" ++ data ++ lit "}" ++ [NL].

Definition register_text (client_id : cstr) : cstr :=
  lit "{" ++ quoted (lit "type") ++ lit ":" ++ quoted (lit "register")
  ++ lit "," ++ quoted (lit "client_id") ++ lit ":" ++ quoted client_id
  ++ lit "}" ++ [NL].

(** [create_json_telemetry]: [malloc_ok] tells whether [malloc] returned
    storage; the text is printed into [256 + strlen(id) + strlen(data)]
    bytes. *)
Definition create_json_telemetry (malloc_ok : bool) (client_id data : cstr)
  : option cstr :=
  let len := 256 + strlen client_id + strlen data in
  if malloc_ok then Some (snprintf len (telemetry_text client_id data))
  else None.

Definition create_json_register (malloc_ok : bool) (client_id : cstr)
  : option cstr :=
  let len := 128 + strlen client_id in
  if malloc_ok then Some (snprintf len (register_text client_id))
  else None.

End Codec.
Import Codec.

(** ** The client object, the operating system and the operations *)

Module Client.

(** [struct IotcRelayClient].  A thread handle is [true] once
    [pthread_create] has stored a handle in it; the callback is [true] when
    the function pointer is not null.  The mutex is not a field of the
    model: every operation below runs to completion on its own. *)
Record IotcRelayClient := {
  socket_path : cstr;
  client_id : cstr;
  sockfd : Z;
  is_connected : bool;
  is_running : bool;
  receive_thread : bool;
  reconnect_thread : bool;
  command_callback : bool;
  user_data : Z;
  reconnect_delay : Z
}.

Definition set_sockfd (fd : Z) (c : IotcRelayClient) : IotcRelayClient :=
  {| socket_path := socket_path c; client_id := client_id c; sockfd := fd;
     is_connected := is_connected c; is_running := is_running c;
     receive_thread := receive_thread c;
     reconnect_thread := reconnect_thread c;
     command_callback := command_callback c; user_data := user_data c;
     reconnect_delay := reconnect_delay c |}.

Definition set_is_connected (b : bool) (c : IotcRelayClient) : IotcRelayClient :=
  {| socket_path := socket_path c; client_id := client_id c;
     sockfd := sockfd c; is_connected := b; is_running := is_running c;
     receive_thread := receive_thread c;
     reconnect_thread := reconnect_thread c;
     command_callback := command_callback c; user_data := user_data c;
     reconnect_delay := reconnect_delay c |}.

Definition set_is_running (b : bool) (c : IotcRelayClient) : IotcRelayClient :=
  {| socket_path := socket_path c; client_id := client_id c;
     sockfd := sockfd c; is_connected := is_connected c; is_running := b;
     receive_thread := receive_thread c;
     reconnect_thread := reconnect_thread c;
     command_callback := command_callback c; user_data := user_data c;
     reconnect_delay := reconnect_delay c |}.

Definition set_receive_thread (b : bool) (c : IotcRelayClient) : IotcRelayClient :=
  {| socket_path := socket_path c; client_id := client_id c;
     sockfd := sockfd c; is_connected := is_connected c;
     is_running := is_running c; receive_thread := b;
     reconnect_thread := reconnect_thread c;
     command_callback := command_callback c; user_data := user_data c;
     reconnect_delay := reconnect_delay c |}.

Definition set_reconnect_thread (b : bool) (c : IotcRelayClient) : IotcRelayClient :=
  {| socket_path := socket_path c; client_id := client_id c;
     sockfd := sockfd c; is_connected := is_connected c;
     is_running := is_running c; receive_thread := receive_thread c;
     reconnect_thread := b;
     command_callback := command_callback c; user_data := user_data c;
     reconnect_delay := reconnect_delay c |}.

(** Where a connection goes: the outcome of the transport resolver as
    [connect_to_server] uses it. *)
Inductive Target :=
| TcpTarget (host : cstr) (port : Z)
| UnixTarget (path : cstr).

(** What the client does to the outside. *)
Inductive Event :=
| EvConnect (fd : Z) (t : Target)
| EvSend (fd : Z) (message : cstr)
| EvClose (fd : Z)
| EvCallback (command_name parameters : cstr) (user_data : Z)
| EvCancel (receive : bool).

(** The process as the operating system sees it: the descriptors that are
    open, and the calls made so far, oldest first. *)
Record World := {
  open_fds : list Z;
  events : list Event
}.

Definition emit (e : Event) (w : World) : World :=
  {| open_fds := open_fds w; events := events w ++ [e] |}.

Definition emit_all (es : list Event) (w : World) : World :=
  {| open_fds := open_fds w; events := events w ++ es |}.

(** [socket()]: the environment answers with a new descriptor, which is
    then open, or with a failure, and the call returns -1. *)
Definition sys_socket (answer : option nat) (w : World) : Z * World :=
  match answer with
  | Some fd =>
      (Z.of_nat fd,
       {| open_fds := Z.of_nat fd :: open_fds w; events := events w |})
  | None => ((-1)%Z, w)
  end.

(** [close(fd)]. *)
Definition sys_close (fd : Z) (w : World) : World :=
  {| open_fds := remove Z.eq_dec fd (open_fds w);
     events := events w ++ [EvClose fd] |}.

(** The answers of the system to one run of [connect_to_server]. *)
Record ConnEnv := {
  os_socket : option nat;      (* socket(): a descriptor, or failure *)
  os_inet_pton : bool;         (* inet_pton(...) > 0 *)
  os_gethostbyname : bool;     (* gethostbyname(...) is not null *)
  os_connect : bool;           (* connect(...) >= 0 *)
  os_malloc : bool;            (* malloc for the register message *)
  os_send : Z;                 (* what send() returns for it *)
  os_pthread_create : bool     (* pthread_create(...) == 0 *)
}.

(** [sizeof(addr.sun_path)] of [struct sockaddr_un] (Linux). *)
Definition SUN_PATH_SIZE : nat := 108.

Definition parse_tcp_target (path : cstr) (host_len : nat)
  : option (cstr * Z) :=
  let prefix := lit "tcp://" in
  if negb (strncmp_eq path prefix (strlen prefix)) then None
  else
    let start := skipn (strlen prefix) path in
    match strrchr start ":"%char with
    | None => None
    | Some 0 => None
    | Some colon =>
        let hlen := if host_len <=? colon then host_len - 1 else colon in
        Some (strncpy start hlen, atoi (skipn (S colon) start))
    end.

Definition send_message (sent : Z) (c : IotcRelayClient) (message : cstr)
  (w : World) : Z * IotcRelayClient * World :=
  let len := strlen message in
  let w := emit (EvSend (sockfd c) message) w in
  if ((sent <? 0) || negb (sent =? Z.of_nat len))%Z
  then (IOTC_RELAY_ERROR_SEND, set_is_connected false c, w)
  else (IOTC_RELAY_SUCCESS, c, w).

Definition disconnect_from_server (c : IotcRelayClient) (w : World)
  : IotcRelayClient * World :=
  let c := set_is_connected false c in
  if (0 <=? sockfd c)%Z
  then (set_sockfd (-1) c, sys_close (sockfd c) w)
  else (c, w).

(** The part of [connect_to_server] after the transport is connected. *)
Definition after_connect (env : ConnEnv) (c : IotcRelayClient) (w : World)
  : Z * IotcRelayClient * World :=
  let c := set_is_connected true c in
  let '(c, w) :=
    match create_json_register (os_malloc env) (client_id c) with
    | Some reg_msg =>
        let '(_, c, w) := send_message (os_send env) c reg_msg w in (c, w)
    | None => (c, w)
    end in
  if os_pthread_create env
  then (IOTC_RELAY_SUCCESS, set_receive_thread true c, w)
  else
    let '(c, w) := disconnect_from_server c w in
    (IOTC_RELAY_ERROR_SOCKET, c, w).

Definition connect_to_server (env : ConnEnv) (c : IotcRelayClient)
  (w : World) : Z * IotcRelayClient * World :=
  match parse_tcp_target (socket_path c) 256 with
  | Some (host, port) =>
      let '(fd, w) := sys_socket (os_socket env) w in
      let c := set_sockfd fd c in
      if (sockfd c <? 0)%Z then (IOTC_RELAY_ERROR_SOCKET, c, w)
      else if negb (os_inet_pton env) && negb (os_gethostbyname env)
      then (IOTC_RELAY_ERROR_CONNECT,
            set_sockfd (-1) c, sys_close (sockfd c) w)
      else
        let w :=
          emit (EvConnect (sockfd c) (TcpTarget host (port mod 65536))) w in
        if negb (os_connect env)
        then (IOTC_RELAY_ERROR_CONNECT,
              set_sockfd (-1) c, sys_close (sockfd c) w)
        else after_connect env c w
  | None =>
      let '(fd, w) := sys_socket (os_socket env) w in
      let c := set_sockfd fd c in
      if (sockfd c <? 0)%Z then (IOTC_RELAY_ERROR_SOCKET, c, w)
      else
        let path := strncpy (socket_path c) (SUN_PATH_SIZE - 1) in
        let w := emit (EvConnect (sockfd c) (UnixTarget path)) w in
        if negb (os_connect env)
        then (IOTC_RELAY_ERROR_CONNECT,
              set_sockfd (-1) c, sys_close (sockfd c) w)
        else after_connect env c w
  end.

(** [iotc_relay_client_create]; [calloc_ok] tells whether [calloc]
    returned storage.  The result is the new handle, null on failure. *)
Definition iotc_relay_client_create (calloc_ok : bool)
  (path id : option cstr) (callback : bool) (data : Z)
  : option IotcRelayClient :=
  match path, id with
  | Some path, Some id =>
      if calloc_ok then
        Some {| socket_path := strncpy path (IOTC_RELAY_MAX_PATH - 1);
                client_id := strncpy id (IOTC_RELAY_MAX_CLIENT_ID - 1);
                sockfd := -1;
                is_connected := false;
                is_running := false;
                receive_thread := false;
                reconnect_thread := false;
                command_callback := callback;
                user_data := data;
                reconnect_delay := 5 |}
      else None
  | _, _ => None
  end.

(** [iotc_relay_client_start]; [thread_ok] tells whether the reconnect
    thread could be created.  The client comes back as it is left. *)
Definition iotc_relay_client_start (env : ConnEnv) (thread_ok : bool)
  (client : option IotcRelayClient) (w : World)
  : Z * option IotcRelayClient * World :=
  match client with
  | None => (IOTC_RELAY_ERROR_INVALID_PARAM, None, w)
  | Some c =>
      let c := set_is_running true c in
      let '(_, c, w) := connect_to_server env c w in
      if thread_ok
      then (IOTC_RELAY_SUCCESS, Some (set_reconnect_thread true c), w)
      else (IOTC_RELAY_ERROR_SOCKET, Some (set_is_running false c), w)
  end.

Definition iotc_relay_client_stop (client : option IotcRelayClient)
  (w : World) : option IotcRelayClient * World :=
  match client with
  | None => (None, w)
  | Some c =>
      let c := set_is_running false c in
      let '(c, w) := disconnect_from_server c w in
      let w := if receive_thread c then emit (EvCancel true) w else w in
      let w := if reconnect_thread c then emit (EvCancel false) w else w in
      (Some c, w)
  end.

(** [iotc_relay_client_destroy]: after it the storage is freed, so only
    the world remains. *)
Definition iotc_relay_client_destroy (client : option IotcRelayClient)
  (w : World) : World :=
  match client with
  | None => w
  | Some c => snd (iotc_relay_client_stop (Some c) w)
  end.

Definition iotc_relay_client_is_connected (client : option IotcRelayClient)
  : bool :=
  match client with
  | None => false
  | Some c => is_connected c
  end.

(** [iotc_relay_client_send_telemetry]; [malloc_ok] and [sent] are the
    answers of [malloc] and of [send], should they be called. *)
Definition iotc_relay_client_send_telemetry (malloc_ok : bool) (sent : Z)
  (client : option IotcRelayClient) (json_data : option cstr) (w : World)
  : Z * option IotcRelayClient * World :=
  match client, json_data with
  | Some c, Some json_data =>
      if negb (is_connected c)
      then (IOTC_RELAY_ERROR_DISCONNECTED, Some c, w)
      else
        match create_json_telemetry malloc_ok (client_id c) json_data with
        | None => (IOTC_RELAY_ERROR_JSON, Some c, w)
        | Some message =>
            let '(result, c, w) := send_message sent c message w in
            (result, Some c, w)
        end
  | _, _ => (IOTC_RELAY_ERROR_INVALID_PARAM, client, w)
  end.

(** [handle_server_message]: the callback invocations it makes. *)
Definition handle_server_message (c : IotcRelayClient) (message : cstr)
  : list Event :=
  match find_json_value message (lit "type") with
  | None => []
  | Some type =>
      if streq type (lit "command") then
        let command_name := find_json_value message (lit "command_name") in
        let parameters := find_json_value message (lit "parameters") in
        match command_name with
        | Some name =>
            if command_callback c
            then [EvCallback name
                    (match parameters with Some p => p | None => [] end)
                    (user_data c)]
            else []
        | None => []
        end
      else []
  end.

(** [sizeof(message_buffer)] in [receive_thread_func]. *)
Definition MESSAGE_BUFFER_SIZE : nat := IOTC_RELAY_BUFFER_SIZE * 2.

(** The inner loop of [receive_thread_func], [while (strchr(..., '\n'))]:
    the lines handed to [handle_server_message], in order, and what stays
    in the buffer.  Every turn shortens the buffer, so [fuel] turns are
    enough when [fuel] exceeds its length. *)
Fixpoint frame_loop_fuel (fuel : nat) (message_buffer : cstr)
  : list cstr * cstr :=
  match fuel with
  | 0 => ([], message_buffer)
  | S fuel =>
      match strchr message_buffer NL with
      | None => ([], message_buffer)
      | Some newline =>
          let line := firstn newline message_buffer in
          let '(lines, rest) :=
            frame_loop_fuel fuel (skipn (S newline) message_buffer) in
          (line :: lines, rest)
      end
  end.

Definition frame_loop (message_buffer : cstr) : list cstr * cstr :=
  frame_loop_fuel (S (strlen message_buffer)) message_buffer.

(** One successful read: the bytes [recv] stored are appended with
    [strncat], then the frames are taken out. *)
Definition receive_chunk (message_buffer : cstr) (buffer : list ascii)
  : list cstr * cstr :=
  let room := MESSAGE_BUFFER_SIZE - strlen message_buffer - 1 in
  frame_loop (strncat message_buffer (c_str buffer) room).

Definition dispatch (c : IotcRelayClient) (lines : list cstr) : list Event :=
  flat_map (handle_server_message c) lines.

(** [receive_thread_func] against the successive answers of [recv]:
    [None] for an error, [Some] of the bytes stored otherwise (none at the
    end of the stream; at most [IOTC_RELAY_BUFFER_SIZE - 1]).  When the
    answers run out the thread is waiting in [recv]. *)
Fixpoint receive_thread_func (reads : list (option (list ascii)))
  (c : IotcRelayClient) (message_buffer : cstr) (w : World)
  : IotcRelayClient * cstr * World :=
  match reads with
  | [] => (c, message_buffer, w)
  | r :: reads =>
      if is_running c && is_connected c then
        match r with
        | None | Some [] => (set_is_connected false c, message_buffer, w)
        | Some buffer =>
            let '(lines, message_buffer) :=
              receive_chunk message_buffer buffer in
            receive_thread_func reads c message_buffer
              (emit_all (dispatch c lines) w)
        end
      else (c, message_buffer, w)
  end.

(** One turn of the loop of [reconnect_thread_func]. *)
Definition reconnect_turn (env : ConnEnv) (c : IotcRelayClient) (w : World)
  : IotcRelayClient * World :=
  if is_running c && negb (is_connected c)
  then let '(_, c, w) := connect_to_server env c w in (c, w)
  else (c, w).

End Client.
Import Client.

(** ** The specification's wording, for comparison with the code *)

Module Spec.




(** The frames of a byte stream: its newline-terminated segments, in
    order, without their newline, and the bytes after the last newline. *)
Fixpoint frames (stream : list ascii) : list cstr * cstr :=
  match stream with
  | [] => ([], [])
  | a :: stream =>
      let '(complete, partial) := frames stream in
      if Ascii.eqb a NL then ([] :: complete, partial)
      else match complete with
           | [] => ([], a :: partial)
           | f :: complete => ((a :: f) :: complete, partial)
           end
  end.

(** The Receive Loop as the specification words it: every chunk is
    appended, so what has been dispatched after a run is the decoding of
    each complete frame of the whole stream, in order. *)
Definition receive_loop (c : IotcRelayClient) (chunks : list (list ascii))
  : list Event :=
  dispatch c (fst (frames (List.concat chunks))).

End Spec.

(** ** Conditions used in the statements *)

Module Cond.

(** Whether the step between [socket()] and the handshake fails: the host
    of a TCP target is neither a numeric address nor a known name, or
    [connect] fails. *)
Definition connect_step_fails (env : ConnEnv) (c : IotcRelayClient) : bool :=
  match parse_tcp_target (socket_path c) 256 with
  | Some _ =>
      (negb (os_inet_pton env) && negb (os_gethostbyname env))
      || negb (os_connect env)
  | None => negb (os_connect env)
  end.

(** No byte of the chunks is lost to the capacity of the message buffer:
    at every read, what the buffer holds and the chunk together leave room
    for the terminator. *)
Fixpoint chunks_fit (message_buffer : cstr) (chunks : list (list ascii))
  : bool :=
  match chunks with
  | [] => true
  | chunk :: chunks =>
      (strlen message_buffer + strlen chunk <=? MESSAGE_BUFFER_SIZE - 1)
      && chunks_fit (snd (receive_chunk message_buffer chunk)) chunks
  end.

(** Every frame of the stream, the unfinished one at its end included, is
    at most [limit] bytes long. *)
Definition frames_within (limit : nat) (stream : list ascii) : Prop :=
  Forall (fun f => strlen f <= limit) (fst (Spec.frames stream))
  /\ strlen (snd (Spec.frames stream)) <= limit.

(** A chunk as a read delivers it to the protocol: some bytes, none of
    them NUL. *)
Definition text_chunk (chunk : list ascii) : Prop :=
  chunk <> [] /\ ~ In NUL chunk.

End Cond.
Import Cond.

(** ** Sample data *)

Module Samples.

(** A client connected over descriptor 3. *)
Definition connected_client : IotcRelayClient :=
  {| socket_path := lit "/tmp/iotc-relay.sock";
     client_id := lit "abc";
     sockfd := 3;
     is_connected := true;
     is_running := true;
     receive_thread := true;
     reconnect_thread := true;
     command_callback := true;
     user_data := 7;
     reconnect_delay := 5 |}.

Definition connected_world : World :=
  {| open_fds := [3%Z]; events := [] |}.

(** A client just created for a local socket, nothing open yet. *)
Definition fresh_client : IotcRelayClient :=
  {| socket_path := lit "/tmp/iotc-relay.sock";
     client_id := lit "abc";
     sockfd := -1;
     is_connected := false;
     is_running := false;
     receive_thread := false;
     reconnect_thread := false;
     command_callback := true;
     user_data := 7;
     reconnect_delay := 5 |}.

Definition empty_world : World := {| open_fds := []; events := [] |}.


(** A system in which everything works and [socket()] answers [fd];
    [sent] is what [send] reports for the register message. *)
Definition all_fine (fd : nat) (sent : Z) : ConnEnv :=
  {| os_socket := Some fd; os_inet_pton := true; os_gethostbyname := true;
     os_connect := true; os_malloc := true; os_send := sent;
     os_pthread_create := true |}.

(** A system in which [socket()] fails. *)
Definition no_socket : ConnEnv :=
  {| os_socket := None; os_inet_pton := true; os_gethostbyname := true;
     os_connect := true; os_malloc := true; os_send := 0;
     os_pthread_create := true |}.

(** [connect] is refused. *)
Definition refused (fd : nat) : ConnEnv :=
  {| os_socket := Some fd; os_inet_pton := true; os_gethostbyname := true;
     os_connect := false; os_malloc := true; os_send := 0;
     os_pthread_create := true |}.

(** A client is created and started, the relay accepts it on descriptor 3
    and the register message goes out whole. *)
Definition started : option IotcRelayClient * World :=
  let client :=
    iotc_relay_client_create true (Some (lit "/tmp/iotc-relay.sock"))
      (Some (lit "abc")) true 7 in
  let '(_, client, w) :=
    iotc_relay_client_start
      (all_fine 3 (Z.of_nat (strlen (register_text (lit "abc")))))
      true client empty_world in
  (client, w).

(** Then the relay closes the connection: [recv] returns 0. *)
Definition after_eof : IotcRelayClient * World :=
  match started with
  | (Some c, w) =>
      let '(c, _, w) := receive_thread_func [Some []] c [] w in (c, w)
  | (None, w) => (fresh_client, w)
  end.

(** Then the reconnect thread takes its turn and the relay accepts again,
    on descriptor 4. *)
Definition after_reconnect : IotcRelayClient * World :=
  let '(c, w) := after_eof in
  reconnect_turn
    (all_fine 4 (Z.of_nat (strlen (register_text (lit "abc"))))) c w.

(** Then the application stops and destroys the client. *)
Definition after_destroy : World :=
  let '(c, w) := after_reconnect in
  iotc_relay_client_destroy (Some c) w.

(** The inbound command frame of the wire protocol, newline excluded. *)
Definition command_frame (name params : cstr) : cstr :=
  js "{'type':'command','command_name':'" ++ name ++ js "','parameters':'"
  ++ params ++ js "'}".


(** A command whose parameters are 8200 bytes long, with its newline, and
    the reads that deliver it: 4095 bytes, 4095 bytes, the rest.  A short
    command follows in a fourth read. *)
Definition long_frame : cstr :=
  command_frame (lit "reboot") (repeat "a"%char 8200) ++ [NL].

Definition long_frame_reads : list (list ascii) :=
  [firstn 4095 long_frame;
   firstn 4095 (skipn 4095 long_frame);
   skipn 8190 long_frame;
   command_frame (lit "status") (lit "now") ++ [NL]].

End Samples.

(** ** The rest of the client *)

Module More.

(** [iotc_relay_error_string]. *)
Definition iotc_relay_error_string (error : Z) : cstr :=
  match error with
  | 0%Z => lit "Success"
  | (-1)%Z => lit "Socket error"
  | (-2)%Z => lit "Connection error"
  | (-3)%Z => lit "Send error"
  | (-4)%Z => lit "Receive error"
  | (-5)%Z => lit "JSON error"
  | (-6)%Z => lit "Not connected"
  | (-7)%Z => lit "Invalid parameter"
  | _ => lit "Unknown error"
  end.

(** [reconnect_thread_func] against the answers the system has ready for
    each turn of its loop (they are used when the turn connects).  When
    the turns run out the thread is asleep. *)
Fixpoint reconnect_thread_func (turns : list ConnEnv) (c : IotcRelayClient)
  (w : World) : IotcRelayClient * World :=
  match turns with
  | [] => (c, w)
  | env :: turns =>
      if is_running c then
        let '(c, w) :=
          if negb (is_connected c)
          then let '(_, c, w) := connect_to_server env c w in (c, w)
          else (c, w) in
        reconnect_thread_func turns c w
      else (c, w)
  end.

(** The peer [connect_to_server] addresses for a stored address. *)
Definition target_of (path : cstr) : Target :=
  match parse_tcp_target path 256 with
  | Some (host, port) => TcpTarget host (port mod 65536)
  | None => UnixTarget (strncpy path (SUN_PATH_SIZE - 1))
  end.


(** The number of newlines in a chunk. *)
Definition newlines (bytes : list ascii) : nat :=
  count_occ ascii_dec bytes NL.

(** The bytes of the reads that brought data. *)
Fixpoint received (reads : list (option (list ascii))) : list ascii :=
  match reads with
  | [] => []
  | Some bytes :: reads => bytes ++ received reads
  | None :: reads => received reads
  end.

(** Whether a connection attempt to the address [path] fails with the
    answers [env]: no socket, no resolution or no connection, or no
    receive thread. *)
Definition attempt_fails (env : ConnEnv) (path : cstr) : bool :=
  match os_socket env with
  | None => true
  | Some _ =>
      match parse_tcp_target path 256 with
      | Some _ =>
          (negb (os_inet_pton env) && negb (os_gethostbyname env))
          || negb (os_connect env)
      | None => negb (os_connect env)
      end
      || negb (os_pthread_create env)
  end.

Definition is_callback (e : Event) : bool :=
  match e with EvCallback _ _ _ => true | _ => false end.

Definition blank (c : ascii) : bool := Ascii.eqb c SPACE || Ascii.eqb c TAB.

(** The characters that end an unquoted value. *)
Definition ends_token (c : ascii) : bool :=
  Ascii.eqb c ","%char || Ascii.eqb c "}"%char || Ascii.eqb c NL.

End More.
Import More.

(** * Properties *)

(** ** Basic facts about the string functions *)

Lemma streq_true_iff (a b : cstr) : streq a b = true <-> a = b.
Proof.
  revert b; induction a as [|x a IH]; intros [|y b]; simpl;
    try (split; (reflexivity || discriminate)).
  rewrite andb_true_iff, Ascii.eqb_eq, IH.
  split; [intros [-> ->]; reflexivity | intros E; injection E; auto].
Qed.


Lemma snprintf_fits (size : nat) (full : cstr) :
  strlen full < size -> snprintf size full = full.
Proof. intros H; unfold snprintf; apply firstn_all2; lia. Qed.

Lemma strchr_None (s : cstr) (c : ascii) : strchr s c = None <-> ~ In c s.
Proof.
  induction s as [|a s IH]; simpl.
  - tauto.
  - destruct (Ascii.eqb a c) eqn:E.
    + apply Ascii.eqb_eq in E. split; [discriminate|]. intros H; elim H; auto.
    + apply Ascii.eqb_neq in E. destruct (strchr s c); simpl.
      * split; [discriminate|]. intros H.
        assert (D : Some n = None) by (apply IH; intros Hin; apply H; auto).
        discriminate D.
      * split; [|reflexivity]. intros _ [H|H]; [congruence|].
        now apply (proj1 IH).
Qed.

Lemma strchr_Some (s : cstr) (c : ascii) (i : nat) :
  strchr s c = Some i ->
  s = firstn i s ++ c :: skipn (S i) s /\ ~ In c (firstn i s)
  /\ i < strlen s.
Proof.
  revert i; induction s as [|a s IH]; simpl; [discriminate|].
  intros i. destruct (Ascii.eqb a c) eqn:E.
  - apply Ascii.eqb_eq in E; subst a. intros H; injection H as <-.
    cbn. repeat split; [tauto | lia].
  - apply Ascii.eqb_neq in E. destruct (strchr s c) as [j|]; [|discriminate].
    cbn. intros H; injection H as <-.
    destruct (IH j eq_refl) as (H1 & H2 & H3). cbn. repeat split.
    + f_equal. exact H1.
    + intros [H|H]; [congruence|tauto].
    + lia.
Qed.

Lemma strchr_first (p r : cstr) (c : ascii) :
  ~ In c p -> strchr (p ++ c :: r) c = Some (strlen p).
Proof.
  induction p as [|a p IH]; intros H; cbn [app strchr List.length].
  - now rewrite Ascii.eqb_refl.
  - destruct (Ascii.eqb a c) eqn:E.
    + apply Ascii.eqb_eq in E. elim H. now left.
    + rewrite IH; [reflexivity|]. intros Hin; apply H; now right.
Qed.

(** ** Encoding (C4) *)

Lemma telemetry_text_js (id data : cstr) :
  telemetry_text id data =
  js "{'type':'telemetry','client_id':'" ++ id ++ js "','data':" ++ data
  ++ js "}" ++ [NL].
Proof.
  unfold telemetry_text, quoted; cbn.
  rewrite <- !app_assoc. reflexivity.
Qed.

Lemma register_text_js (id : cstr) :
  register_text id = js "{'type':'register','client_id':'" ++ id ++ js "'}" ++ [NL].
Proof.
  unfold register_text, quoted; cbn.
  rewrite <- !app_assoc. reflexivity.
Qed.

(** C4.  With storage at hand, [create_json_telemetry] yields exactly
    [{"type":"telemetry","client_id":"<id>","data":<data>}] and a newline,
    the data copied as it is, and [create_json_register] yields exactly
    [{"type":"register","client_id":"<id>"}] and a newline: the buffers of
    [256 + ...] and [128 + ...] bytes never cut the text.  For the client
    [abc] and the data [{"temperature":25.5}] the telemetry text is
    [{"type":"telemetry","client_id":"abc","data":{"temperature":25.5}}]
    and a newline. *)
Theorem encode_envelopes_exact :
  (forall id data : cstr,
      create_json_telemetry true id data =
      Some (js "{'type':'telemetry','client_id':'" ++ id ++ js "','data':"
            ++ data ++ js "}" ++ [NL]))
  /\ (forall id : cstr,
      create_json_register true id =
      Some (js "{'type':'register','client_id':'" ++ id ++ js "'}" ++ [NL]))
  /\ create_json_telemetry true (lit "abc") (js "{'temperature':25.5}") =
     Some (js "{'type':'telemetry','client_id':'abc','data':{'temperature':25.5}}"
           ++ [NL]).
Proof.
  split; [|split].
  - intros id data. unfold create_json_telemetry.
    rewrite snprintf_fits.
    + now rewrite telemetry_text_js.
    + rewrite telemetry_text_js. rewrite !length_app. cbn. lia.
  - intros id. unfold create_json_register.
    rewrite snprintf_fits.
    + now rewrite register_text_js.
    + rewrite register_text_js. rewrite !length_app. cbn. lia.
  - reflexivity.
Qed.

(** ** The send path (C2, C6) *)

(** C2.  While the client is not connected, [sendTelemetry] (handle and
    payload present) returns the Disconnected error; the client and the
    world come back as they were, so no [send] was attempted. *)
Theorem send_telemetry_disconnected :
  forall (malloc_ok : bool) (sent : Z) (c : IotcRelayClient) (json : cstr)
         (w : World),
    is_connected c = false ->
    iotc_relay_client_send_telemetry malloc_ok sent (Some c) (Some json) w
    = (IOTC_RELAY_ERROR_DISCONNECTED, Some c, w).
Proof.
  intros malloc_ok sent c json w H.
  unfold iotc_relay_client_send_telemetry. rewrite H. reflexivity.
Qed.

Lemma send_telemetry_disconnected_witness :
  is_connected Samples.fresh_client = false
  /\ iotc_relay_client_send_telemetry true 0 (Some Samples.fresh_client)
       (Some (js "{'temperature':25.5}")) Samples.empty_world
     = (IOTC_RELAY_ERROR_DISCONNECTED, Some Samples.fresh_client,
        Samples.empty_world).
Proof.
  split; [reflexivity|].
  apply (send_telemetry_disconnected true 0 Samples.fresh_client
           (js "{'temperature':25.5}") Samples.empty_world).
  reflexivity.
Defined.

(** C6.  On a connected client, when [send] fails or reports another
    count than the length of the encoded envelope, [sendTelemetry] returns
    the Send error and leaves the client marked disconnected; the world has
    exactly one more event, the one [send] of the whole envelope: the rest
    is not sent again. *)
Theorem send_telemetry_short_write :
  forall (sent : Z) (c : IotcRelayClient) (json : cstr) (w : World),
    is_connected c = true ->
    (sent < 0 \/ sent <> Z.of_nat (strlen (telemetry_text (client_id c) json)))%Z ->
    iotc_relay_client_send_telemetry true sent (Some c) (Some json) w
    = (IOTC_RELAY_ERROR_SEND,
       Some (set_is_connected false c),
       emit (EvSend (sockfd c) (telemetry_text (client_id c) json)) w).
Proof.
  intros sent c json w Hc Hs.
  unfold iotc_relay_client_send_telemetry, create_json_telemetry.
  rewrite Hc; cbn [negb].
  rewrite snprintf_fits
    by (rewrite telemetry_text_js, !length_app; cbn; lia).
  unfold send_message.
  assert (E : ((sent <? 0) ||
               negb (sent =? Z.of_nat (strlen (telemetry_text (client_id c) json))))%Z
              = true).
  { apply orb_true_iff. destruct Hs as [Hs|Hs].
    - left; now apply Z.ltb_lt.
    - right; apply negb_true_iff; now apply Z.eqb_neq. }
  rewrite E. reflexivity.
Qed.

Lemma send_telemetry_short_write_witness :
  iotc_relay_client_send_telemetry true 10 (Some Samples.connected_client)
    (Some (js "{'temperature':25.5}")) Samples.connected_world
  = (IOTC_RELAY_ERROR_SEND,
     Some (set_is_connected false Samples.connected_client),
     emit (EvSend 3 (telemetry_text (lit "abc") (js "{'temperature':25.5}")))
       Samples.connected_world).
Proof.
  apply (send_telemetry_short_write 10 Samples.connected_client
           (js "{'temperature':25.5}") Samples.connected_world).
  - reflexivity.
  - right. vm_compute. discriminate.
Defined.

(** ** Null handles (C9) *)

(** C9.  [create] returns the null handle when the address or the client
    identifier is null; [start] and [sendTelemetry] on a null handle, and
    [sendTelemetry] with a null payload, return the InvalidParam error and
    touch nothing; [isConnected] on a null handle is false; [stop] and
    [destroy] on a null handle leave the world as it is. *)
Theorem null_handles_tolerated :
  (forall ok id callback data,
      iotc_relay_client_create ok None id callback data = None)
  /\ (forall ok path callback data,
      iotc_relay_client_create ok path None callback data = None)
  /\ (forall env thread_ok w,
      iotc_relay_client_start env thread_ok None w
      = (IOTC_RELAY_ERROR_INVALID_PARAM, None, w))
  /\ (forall malloc_ok sent json w,
      iotc_relay_client_send_telemetry malloc_ok sent None json w
      = (IOTC_RELAY_ERROR_INVALID_PARAM, None, w))
  /\ (forall malloc_ok sent client w,
      iotc_relay_client_send_telemetry malloc_ok sent client None w
      = (IOTC_RELAY_ERROR_INVALID_PARAM, client, w))
  /\ iotc_relay_client_is_connected None = false
  /\ (forall w, iotc_relay_client_stop None w = (None, w))
  /\ (forall w, iotc_relay_client_destroy None w = w).
Proof.
  repeat split.
  - intros ok [p|] callback data; reflexivity.
  - intros malloc_ok sent [c|] w; reflexivity.
Qed.

(** ** Decoding and dispatch (C3) *)


(** *** Frames of the wire protocol *)






Lemma search_length (key : cstr) :
  strlen (quoted key ++ lit ":") = strlen key + 3.
Proof.
  unfold quoted. rewrite length_app. cbn [List.length].
  rewrite length_app. cbn. lia.
Qed.

(** [find_json_value] on a key whose first occurrence is followed by a
    quoted value without quote inside. *)
Lemma find_json_value_quoted (json key pre v post : cstr) :
  strlen key + 3 < 128 ->
  strstr json (quoted key ++ lit ":") = Some (strlen pre) ->
  json = pre ++ (quoted key ++ lit ":") ++ DQ :: v ++ DQ :: post ->
  ~ In DQ v ->
  find_json_value json key = Some v.
Proof.
  intros Hk Hs Hj Hv. unfold find_json_value.
  rewrite snprintf_fits by (rewrite search_length; lia).
  rewrite Hs. rewrite Hj at 1.
  rewrite app_assoc, skipn_app, <- length_app, skipn_all, Nat.sub_diag.
  cbn [app skipn skip_blanks]. change (Ascii.eqb DQ SPACE) with false.
  change (Ascii.eqb DQ TAB) with false. cbn [orb].
  rewrite Ascii.eqb_refl, (strchr_first v post DQ Hv).
  unfold strncpy. rewrite firstn_app, firstn_all, Nat.sub_diag.
  cbn [firstn]. now rewrite app_nil_r.
Qed.





(** The byte stream of the specification's example: a command line, then
    a telemetry line.  One invocation, for the first line. *)
Example dispatch_spec_stream :
  snd (receive_thread_func
         [Some (Samples.command_frame (lit "Command_A") (lit "42") ++ [NL]
                ++ js "{'type':'telemetry','client_id':'x','data':{}}" ++ [NL])]
         Samples.connected_client [] Samples.connected_world)
  = emit (EvCallback (lit "Command_A") (lit "42") 7) Samples.connected_world.
Proof. reflexivity. Qed.

(** Without a callback nothing is invoked. *)
Lemma handle_server_message_no_callback (c : IotcRelayClient) (line : cstr) :
  command_callback c = false -> handle_server_message c line = [].
Proof.
  intros H. unfold handle_server_message.
  destruct (find_json_value line (lit "type")) as [t|]; [|reflexivity].
  destruct (streq t (lit "command")); [|reflexivity].
  destruct (find_json_value line (lit "command_name")); [|reflexivity].
  rewrite H. reflexivity.
Qed.

(** ** The transport resolver (C5) *)

Lemma starts_with_iff (p s : cstr) :
  starts_with p s = true <-> exists r, s = p ++ r.
Proof.
  revert s; induction p as [|x p IH]; intros s; simpl.
  - split; [intros _; exists s; reflexivity | reflexivity].
  - destruct s as [|y s].
    + split; [discriminate | intros [r Hr]; discriminate].
    + rewrite andb_true_iff, Ascii.eqb_eq, IH. split.
      * intros [-> [r ->]]. exists r; reflexivity.
      * intros [r Hr]. injection Hr as -> ->. split; [reflexivity|].
        exists r; reflexivity.
Qed.













(** ** Failure of [connect_to_server] (C8) *)

Lemma remove_fresh (fd : Z) (l : list Z) :
  ~ In fd l -> remove Z.eq_dec fd (fd :: l) = l.
Proof.
  intros H. cbn. destruct (Z.eq_dec fd fd) as [_|N]; [|congruence].
  now apply notin_remove.
Qed.

Lemma fd_not_negative (fd : nat) : (Z.of_nat fd <? 0)%Z = false.
Proof. apply Z.ltb_ge; lia. Qed.

Lemma fd_valid (fd : nat) : (0 <=? Z.of_nat fd)%Z = true.
Proof. apply Z.leb_le; lia. Qed.

(** When the socket exists and the transport is connected, the rest of
    [connect_to_server] either succeeds or, the receive thread not
    starting, closes the socket and reports a Socket error. *)
Lemma after_connect_outcome (env : ConnEnv) (c : IotcRelayClient) (w : World)
  (fd : nat) :
  sockfd c = Z.of_nat fd ->
  let '(r, c', w') := after_connect env c w in
  if os_pthread_create env
  then r = IOTC_RELAY_SUCCESS /\ sockfd c' = Z.of_nat fd
       /\ open_fds w' = open_fds w
  else r = IOTC_RELAY_ERROR_SOCKET /\ sockfd c' = (-1)%Z
       /\ is_connected c' = false
       /\ open_fds w' = remove Z.eq_dec (Z.of_nat fd) (open_fds w).
Proof.
  intros Hfd. unfold after_connect, create_json_register, send_message,
    disconnect_from_server.
  destruct (os_malloc env);
    [destruct ((os_send env <? 0)%Z || _)|];
    destruct (os_pthread_create env); cbn; rewrite ?Hfd, ?fd_valid; cbn;
    rewrite ?Hfd; repeat split; reflexivity.
Qed.




(** ** Connection state and socket handle (C7) *)

(** C7 does not hold of the code.  A client is started and connected on
    descriptor 3; the relay closes the connection, and the receive loop
    clears the connection flag without closing or invalidating the
    descriptor; the reconnect thread then opens descriptor 4 over the
    field.  Descriptors 3 and 4 are both open, nothing ever closed 3, and
    3 is still open after [stop] and [destroy].  [disconnect_from_server]
    is the one place that closes and invalidates the descriptor together
    with the flag. *)
Theorem reconnect_leaks_socket :
  (let '(c, w) := Samples.after_eof in
   is_connected c = false /\ sockfd c = 3%Z /\ open_fds w = [3%Z])
  /\ (let '(c, w) := Samples.after_reconnect in
      is_connected c = true /\ sockfd c = 4%Z /\ open_fds w = [4%Z; 3%Z]
      /\ ~ In (EvClose 3) (events w))
  /\ open_fds Samples.after_destroy = [3%Z].
Proof.
  vm_compute. repeat split.
  intros [H|[H|[H|[H|[]]]]]; discriminate.
Qed.

(** ** The receive loop (C1, C10) *)

Lemma frames_no_newline (s : cstr) : ~ In NL s -> Spec.frames s = ([], s).
Proof.
  induction s as [|a s IH]; [reflexivity|].
  intros H. cbn [Spec.frames]. rewrite IH by (intros Hin; apply H; now right).
  destruct (Ascii.eqb a NL) eqn:E; [|reflexivity].
  apply Ascii.eqb_eq in E. elim H. now left.
Qed.

Lemma frames_first (p r : cstr) :
  ~ In NL p ->
  Spec.frames (p ++ NL :: r)
  = (p :: fst (Spec.frames r), snd (Spec.frames r)).
Proof.
  induction p as [|a p IH]; intros H.
  - cbn. destruct (Spec.frames r); reflexivity.
  - cbn [app Spec.frames]. rewrite IH by (intros Hin; apply H; now right).
    destruct (Ascii.eqb a NL) eqn:E; [|reflexivity].
    apply Ascii.eqb_eq in E. elim H. now left.
Qed.

Lemma frames_rest_no_newline (s : cstr) : ~ In NL (snd (Spec.frames s)).
Proof.
  induction s as [|a s IH]; [cbn; tauto|].
  cbn [Spec.frames]. destruct (Spec.frames s) as [fs r]. cbn [snd] in IH.
  destruct (Ascii.eqb a NL) eqn:E; [exact IH|].
  apply Ascii.eqb_neq in E.
  destruct fs; cbn; [|exact IH]. intros [H|H]; [congruence|tauto].
Qed.

Lemma frames_app (s1 s2 : cstr) :
  Spec.frames (s1 ++ s2)
  = (fst (Spec.frames s1)
       ++ fst (Spec.frames (snd (Spec.frames s1) ++ s2)),
     snd (Spec.frames (snd (Spec.frames s1) ++ s2))).
Proof.
  induction s1 as [|a s1 IH].
  - cbn. now destruct (Spec.frames s2).
  - cbn [app Spec.frames]. rewrite IH. clear IH.
    destruct (Spec.frames s1) as [fs r]. cbn [fst snd].
    destruct (Ascii.eqb a NL) eqn:E; [reflexivity|].
    destruct fs as [|f fs]; cbn [fst snd app].
    + cbn [Spec.frames]. rewrite E.
      destruct (Spec.frames (r ++ s2)) as [[|f' fs'] r']; reflexivity.
    + reflexivity.
Qed.

(** The inner loop has fuel enough, and it computes the frames. *)
Lemma frame_loop_fuel_frames (fuel : nat) (mb : cstr) :
  strlen mb < fuel -> frame_loop_fuel fuel mb = Spec.frames mb.
Proof.
  revert mb; induction fuel as [|fuel IH]; intros mb H; [lia|].
  cbn [frame_loop_fuel]. destruct (strchr mb NL) as [i|] eqn:E.
  - destruct (strchr_Some _ _ _ E) as (H1 & H2 & H3).
    rewrite IH by (rewrite length_skipn; lia).
    replace (Spec.frames mb)
      with (Spec.frames (firstn i mb ++ NL :: skipn (S i) mb))
      by (now rewrite <- H1).
    rewrite frames_first by exact H2.
    now destruct (Spec.frames (skipn (S i) mb)).
  - apply strchr_None in E. now rewrite frames_no_newline.
Qed.

Lemma frame_loop_frames (mb : cstr) : frame_loop mb = Spec.frames mb.
Proof. apply frame_loop_fuel_frames. lia. Qed.

(** The loop of the source, turn by turn. *)
Lemma frame_loop_unfold (mb : cstr) :
  frame_loop mb
  = match strchr mb NL with
    | None => ([], mb)
    | Some newline =>
        (firstn newline mb :: fst (frame_loop (skipn (S newline) mb)),
         snd (frame_loop (skipn (S newline) mb)))
    end.
Proof.
  destruct (strchr mb NL) as [i|] eqn:E; rewrite !frame_loop_frames.
  - destruct (strchr_Some _ _ _ E) as (H1 & H2 & H3).
    replace (Spec.frames mb)
      with (Spec.frames (firstn i mb ++ NL :: skipn (S i) mb))
      by (now rewrite <- H1).
    now rewrite frames_first by exact H2.
  - apply strchr_None in E. now apply frames_no_newline.
Qed.

Lemma c_str_no_nul (s : list ascii) : ~ In NUL s -> c_str s = s.
Proof.
  induction s as [|a s IH]; [reflexivity|]. intros H. cbn [c_str].
  destruct (Ascii.eqb a NUL) eqn:E.
  - apply Ascii.eqb_eq in E. elim H. now left.
  - rewrite IH; [reflexivity|]. intros Hin; apply H; now right.
Qed.

Lemma c_str_length (s : list ascii) : strlen (c_str s) <= strlen s.
Proof.
  induction s as [|a s IH]; [cbn; lia|]. cbn [c_str].
  destruct (Ascii.eqb a NUL); cbn [List.length]; lia.
Qed.

Lemma buffer_size : MESSAGE_BUFFER_SIZE = 2 * 4096.
Proof. reflexivity. Qed.

(** A chunk that fits is appended whole, and the frames are taken out. *)
Lemma receive_chunk_fits (mb : cstr) (chunk : list ascii) :
  ~ In NUL chunk ->
  strlen mb + strlen chunk <= MESSAGE_BUFFER_SIZE - 1 ->
  receive_chunk mb chunk = Spec.frames (mb ++ chunk).
Proof.
  intros Hn Hl. unfold receive_chunk, strncat.
  rewrite frame_loop_frames, (c_str_no_nul _ Hn).
  rewrite firstn_all2 by lia. reflexivity.
Qed.

Lemma emit_all_nil (w : World) : emit_all [] w = w.
Proof. destruct w; unfold emit_all; cbn. now rewrite app_nil_r. Qed.

Lemma emit_all_app (a b : list Event) (w : World) :
  emit_all b (emit_all a w) = emit_all (a ++ b) w.
Proof. unfold emit_all; cbn. now rewrite app_assoc. Qed.

Lemma dispatch_app (c : IotcRelayClient) (l1 l2 : list cstr) :
  dispatch c (l1 ++ l2) = dispatch c l1 ++ dispatch c l2.
Proof. apply flat_map_app. Qed.

(** A run of the receive thread over chunks that fit, from a buffer that
    holds the beginning of a frame. *)
Lemma receive_run (c : IotcRelayClient) (chunks : list (list ascii)) :
  is_running c = true -> is_connected c = true ->
  Forall text_chunk chunks ->
  forall (mb : cstr) (w : World),
    ~ In NL mb -> chunks_fit mb chunks = true ->
    receive_thread_func (map Some chunks) c mb w
    = (c, snd (Spec.frames (mb ++ List.concat chunks)),
       emit_all (dispatch c (fst (Spec.frames (mb ++ List.concat chunks)))) w).
Proof.
  intros Hr Hc Htxt. induction Htxt as [|chunk chunks [Hne Hnul] _ IH];
    intros mb w Hmb Hfit.
  - cbn. rewrite app_nil_r, frames_no_newline by exact Hmb.
    cbn. now rewrite emit_all_nil.
  - cbn [chunks_fit] in Hfit. apply andb_true_iff in Hfit.
    destruct Hfit as [Hlen Hfit]. apply Nat.leb_le in Hlen.
    rewrite (receive_chunk_fits mb chunk Hnul Hlen) in Hfit.
    cbn [map receive_thread_func List.concat]. rewrite Hr, Hc. cbn [andb].
    destruct chunk as [|a chunk]; [congruence|].
    rewrite (receive_chunk_fits mb (a :: chunk) Hnul Hlen).
    rewrite app_assoc, (frames_app (mb ++ a :: chunk)).
    destruct (Spec.frames (mb ++ a :: chunk)) as [lines mb'] eqn:E.
    cbn [fst snd] in *.
    rewrite IH; [|pose proof (frames_rest_no_newline (mb ++ a :: chunk)) as N;
                  now rewrite E in N | exact Hfit].
    now rewrite emit_all_app, dispatch_app.
Qed.

(** What is pending after a part of the stream is the beginning of one
    of its frames. *)
Lemma pending_within (limit : nat) (s1 s2 : cstr) :
  frames_within limit (s1 ++ s2) ->
  strlen (snd (Spec.frames s1)) <= limit
  /\ frames_within limit (snd (Spec.frames s1) ++ s2).
Proof.
  unfold frames_within. rewrite frames_app. cbn [fst snd].
  intros [F R]. apply Forall_app in F. destruct F as [_ F].
  split; [|split; assumption].
  pose proof (frames_rest_no_newline s1) as N.
  set (r := snd (Spec.frames s1)) in *.
  destruct (strchr s2 NL) as [i|] eqn:E.
  - destruct (strchr_Some _ _ _ E) as (H1 & H2 & _).
    rewrite H1, app_assoc, frames_first in F.
    + cbn [fst] in F. inversion F as [|? ? Hl _]; subst.
      rewrite length_app in Hl. lia.
    + intros H. apply in_app_or in H. tauto.
  - apply strchr_None in E. rewrite frames_no_newline in R.
    + cbn [snd] in R. rewrite length_app in R. lia.
    + intros H. apply in_app_or in H. tauto.
Qed.

(** Reads of at most 4095 bytes never overflow the message buffer when
    no frame of the stream is longer than 4096 bytes. *)
Lemma chunks_fit_short_frames (chunks : list (list ascii)) :
  Forall (fun chunk => ~ In NUL chunk
                       /\ strlen chunk <= IOTC_RELAY_BUFFER_SIZE - 1) chunks ->
  forall mb : cstr,
    ~ In NL mb ->
    frames_within IOTC_RELAY_BUFFER_SIZE (mb ++ List.concat chunks) ->
    chunks_fit mb chunks = true.
Proof.
  induction 1 as [|chunk chunks [Hnul Hlen] _ IH]; intros mb Hmb Hw.
  - reflexivity.
  - cbn [chunks_fit List.concat] in *.
    destruct (pending_within _ _ _ Hw) as [P _].
    rewrite frames_no_newline in P by exact Hmb. cbn [snd] in P.
    assert (L : strlen mb + strlen chunk <= MESSAGE_BUFFER_SIZE - 1).
    { unfold MESSAGE_BUFFER_SIZE. lia. }
    apply andb_true_iff. split; [now apply Nat.leb_le|].
    rewrite (receive_chunk_fits mb chunk Hnul L).
    apply IH.
    + apply frames_rest_no_newline.
    + rewrite app_assoc in Hw. now apply pending_within in Hw.
Qed.

(** Against C1 as it is worded: a complete command frame of 8250 bytes,
    delivered in three reads of at most 4095 bytes, then a short command.  The specification's loop
    dispatches both commands; the code dispatches nothing: the message
    buffer fills up at 8191 bytes before the newline of the first frame,
    and everything after that is dropped. *)
Lemma long_frame_not_dispatched :
  Forall (fun chunk => text_chunk chunk /\ strlen chunk <= 4095)
    Samples.long_frame_reads
  /\ List.concat Samples.long_frame_reads
     = Samples.long_frame
       ++ Samples.command_frame (lit "status") (lit "now") ++ [NL]
  /\ Spec.receive_loop Samples.connected_client Samples.long_frame_reads
     = [EvCallback (lit "reboot") (repeat "a"%char 8200) 7;
        EvCallback (lit "status") (lit "now") 7]
  /\ events (snd (receive_thread_func (map Some Samples.long_frame_reads)
                    Samples.connected_client [] Samples.connected_world))
     = [].
Proof.
  split; [|split; [|split]].
  - repeat (apply Forall_cons || apply Forall_nil);
      (split; [split|]);
      try discriminate;
      try (apply Nat.leb_le; vm_compute; reflexivity).
    all: intros H;
      apply (proj1 (strchr_None _ NUL)) in H; [exact H|];
      vm_compute; reflexivity.
  - vm_compute. reflexivity.
  - vm_compute. reflexivity.
  - vm_compute. reflexivity.
Qed.

(** C1, as the code has it.  For reads that bring text (some bytes, none
    NUL) and that fit the message buffer (what it holds and the chunk
    stay within its 8191 bytes), the receive thread appends each chunk
    and, turn by turn of its inner loop, hands the bytes before the first
    newline to the decoder and drops them with the newline.  After the
    run the client is unchanged, the buffer holds the bytes after the last
    newline, and the callback invocations are those of the complete frames
    of the whole stream, each decoded once, in order.  Reads of at most
    4095 bytes of a stream whose frames are at most 4096 bytes long always
    fit.  A frame that comes in two reads is dispatched by the read that
    brings its newline, once. *)
Theorem receive_loop_dispatches_frames :
  forall c : IotcRelayClient,
    is_running c = true -> is_connected c = true ->
    (forall mb chunk,
        ~ In NUL chunk ->
        strlen mb + strlen chunk <= MESSAGE_BUFFER_SIZE - 1 ->
        receive_chunk mb chunk = frame_loop (mb ++ chunk))
    /\ (forall mb,
        frame_loop mb
        = match strchr mb NL with
          | None => ([], mb)
          | Some newline =>
              (firstn newline mb :: fst (frame_loop (skipn (S newline) mb)),
               snd (frame_loop (skipn (S newline) mb)))
          end)
    /\ (forall chunks w,
        Forall text_chunk chunks -> chunks_fit [] chunks = true ->
        receive_thread_func (map Some chunks) c [] w
        = (c, snd (Spec.frames (List.concat chunks)),
           emit_all (Spec.receive_loop c chunks) w))
    /\ (forall chunks w,
        Forall text_chunk chunks ->
        Forall (fun chunk => strlen chunk <= IOTC_RELAY_BUFFER_SIZE - 1)
          chunks ->
        frames_within IOTC_RELAY_BUFFER_SIZE (List.concat chunks) ->
        receive_thread_func (map Some chunks) c [] w
        = (c, snd (Spec.frames (List.concat chunks)),
           emit_all (Spec.receive_loop c chunks) w))
    /\ (forall f1 f2 w,
        f1 <> [] -> ~ In NL (f1 ++ f2) -> ~ In NUL (f1 ++ f2) ->
        strlen (f1 ++ f2) < MESSAGE_BUFFER_SIZE - 1 ->
        receive_thread_func [Some f1] c [] w = (c, f1, w)
        /\ receive_thread_func [Some f1; Some (f2 ++ [NL])] c [] w
           = (c, [], emit_all (handle_server_message c (f1 ++ f2)) w)).
Proof.
  intros c Hr Hc. split; [|split; [|split; [|split]]].
  4:{ intros chunks w Htxt Hlen Hw.
      apply (receive_run c chunks Hr Hc Htxt [] w); [cbn; tauto|].
      apply chunks_fit_short_frames; [|cbn; tauto|exact Hw].
      clear -Htxt Hlen. induction Htxt as [|ch chs [_ Hn] _ IH].
      - constructor.
      - inversion Hlen; subst. constructor; [split; assumption|].
        now apply IH. }
  - intros mb chunk Hn Hl.
    now rewrite frame_loop_frames, receive_chunk_fits.
  - exact frame_loop_unfold.
  - intros chunks w Htxt Hfit.
    apply (receive_run c chunks Hr Hc Htxt [] w); [cbn; tauto | exact Hfit].
  - intros f1 f2 w Hne Hnl Hnul Hlen.
    rewrite length_app in Hlen.
    assert (N1 : ~ In NUL f1) by (intros H; apply Hnul, in_or_app; now left).
    assert (N2 : ~ In NUL f2) by (intros H; apply Hnul, in_or_app; now right).
    assert (L1 : ~ In NL f1) by (intros H; apply Hnl, in_or_app; now left).
    split.
    + rewrite (receive_run c [f1] Hr Hc) with (mb := []);
        [|repeat constructor; assumption | cbn; tauto
         | cbn [chunks_fit]; rewrite andb_true_r; apply Nat.leb_le;
           cbn [List.length]; lia].
      cbn [List.concat app]. rewrite app_nil_r, frames_no_newline by exact L1.
      cbn [fst snd dispatch flat_map]. now rewrite emit_all_nil.
    + rewrite (receive_run c [f1; f2 ++ [NL]] Hr Hc) with (mb := []).
      * cbn [List.concat app]. rewrite app_nil_r.
        replace (f1 ++ f2 ++ [NL]) with ((f1 ++ f2) ++ NL :: [])
          by now rewrite <- app_assoc.
        rewrite frames_first by exact Hnl.
        cbn [Spec.frames fst snd dispatch flat_map]. now rewrite app_nil_r.
      * repeat constructor; try assumption.
        -- destruct f2; discriminate.
        -- intros H. apply in_app_or in H. destruct H as [H|[H|[]]];
             [now apply N2 | discriminate H].
      * cbn; tauto.
      * cbn [chunks_fit].
        rewrite (receive_chunk_fits [] f1 N1) by (cbn [List.length]; lia).
        cbn [app]. rewrite frames_no_newline by exact L1. cbn [snd].
        rewrite andb_true_r. apply andb_true_iff. split; apply Nat.leb_le.
        -- cbn [List.length]; lia.
        -- rewrite length_app. cbn [List.length]. lia.
Qed.

Lemma receive_loop_dispatches_frames_witness :
  receive_thread_func
    [Some (js "{'type':'command','command_na");
     Some (js "me':'Command_A','parameters':'42'}" ++ [NL])]
    Samples.connected_client [] Samples.connected_world
  = (Samples.connected_client, [],
     emit_all
       (handle_server_message Samples.connected_client
          (js "{'type':'command','command_na"
           ++ js "me':'Command_A','parameters':'42'}"))
       Samples.connected_world).
Proof.
  apply (proj2 (proj2 (proj2 (proj2
           (receive_loop_dispatches_frames Samples.connected_client
              eq_refl eq_refl))))).
  - discriminate.
  - intros H. apply (proj1 (strchr_None _ NL)) in H; [exact H|reflexivity].
  - intros H. apply (proj1 (strchr_None _ NUL)) in H; [exact H|reflexivity].
  - apply Nat.ltb_lt. reflexivity.
Defined.

(** *** Capacity of the message buffer (C10) *)

Lemma c_str_app (f x : list ascii) :
  ~ In NUL f -> c_str (f ++ x) = f ++ c_str x.
Proof.
  induction f as [|a f IH]; [reflexivity|]. intros H. cbn [app c_str].
  destruct (Ascii.eqb a NUL) eqn:E.
  - apply Ascii.eqb_eq in E. elim H. now left.
  - rewrite IH; [reflexivity|]. intros Hin; apply H; now right.
Qed.

(** Every frame is shorter than the stream it is cut from. *)
Lemma frames_lengths (s : cstr) :
  Forall (fun line => strlen line < strlen s) (fst (Spec.frames s))
  /\ strlen (snd (Spec.frames s)) <= strlen s.
Proof.
  induction s as [|a s [IH1 IH2]]; [cbn; split; [constructor|lia]|].
  cbn [Spec.frames]. destruct (Spec.frames s) as [fs r]. cbn [fst snd] in *.
  assert (W : Forall (fun line => strlen line < strlen (a :: s)) fs).
  { eapply Forall_impl; [|exact IH1]. cbn [List.length]. intros; lia. }
  destruct (Ascii.eqb a NL).
  - cbn [fst snd List.length]. split; [|lia].
    constructor; [cbn [List.length]; lia | exact W].
  - destruct fs as [|f fs]; cbn [fst snd List.length].
    + split; [constructor|lia].
    + inversion IH1; subst. inversion W; subst. split; [|lia].
      constructor; [cbn [List.length]; lia | assumption].
Qed.





(** * Further properties of the code *)

(** ** Error messages *)

(** X1.  The eight error codes of the header have eight different
    messages, none of them the message of an unknown code, and every
    other integer gets [Unknown error]. *)
Theorem error_string_distinct :
  (forall a b : Z,
      (-7 <= a <= 0)%Z -> (-7 <= b <= 0)%Z ->
      iotc_relay_error_string a = iotc_relay_error_string b -> a = b)
  /\ (forall e : Z,
      iotc_relay_error_string e = lit "Unknown error"
      <-> (e < -7 \/ 0 < e)%Z).
Proof.
  split.
  - intros a b Ha Hb.
    assert (A : (a = 0 \/ a = -1 \/ a = -2 \/ a = -3 \/ a = -4 \/ a = -5
                \/ a = -6 \/ a = -7)%Z) by lia.
    assert (B : (b = 0 \/ b = -1 \/ b = -2 \/ b = -3 \/ b = -4 \/ b = -5
                \/ b = -6 \/ b = -7)%Z) by lia.
    destruct A as [A|[A|[A|[A|[A|[A|[A|A]]]]]]];
      destruct B as [B|[B|[B|[B|[B|[B|[B|B]]]]]]]; subst a b;
      intros H; (reflexivity || (vm_compute in H; discriminate H)).
  - intros e. split.
    + intros H. destruct (Z_lt_dec e (-7)) as [|N1]; [now left|].
      destruct (Z_lt_dec 0 e) as [|N2]; [now right|]. exfalso.
      assert (A : (e = 0 \/ e = -1 \/ e = -2 \/ e = -3 \/ e = -4 \/ e = -5
                  \/ e = -6 \/ e = -7)%Z) by lia.
      destruct A as [A|[A|[A|[A|[A|[A|[A|A]]]]]]]; subst e;
        vm_compute in H; discriminate H.
    + intros [H|H].
      * destruct e as [|p|p]; try lia.
        destruct p as [[[?|?|]|[?|?|]|]|[[?|?|]|[?|?|]|]|];
          (reflexivity || lia).
      * destruct e as [|p|p]; try lia. reflexivity.
Qed.

Lemma error_string_distinct_witness :
  iotc_relay_error_string 5 = lit "Unknown error"
  /\ iotc_relay_error_string (-8) = lit "Unknown error".
Proof.
  split.
  - apply (proj2 error_string_distinct 5%Z). right. lia.
  - apply (proj2 error_string_distinct (-8)%Z). left. lia.
Defined.

(** ** Creation and shutdown *)

Lemma firstn_prefix (A : Type) (n : nat) (l : list A) :
  exists rest, l = firstn n l ++ rest.
Proof. exists (skipn n l). symmetry. apply firstn_skipn. Qed.


(** [disconnect_from_server] leaves no descriptor in the client. *)
Lemma disconnect_state (c : IotcRelayClient) (w : World) :
  let '(c', w') := disconnect_from_server c w in
  is_connected c' = false /\ (sockfd c' < 0)%Z
  /\ is_running c' = is_running c
  /\ receive_thread c' = receive_thread c
  /\ reconnect_thread c' = reconnect_thread c
  /\ open_fds w'
     = (if (0 <=? sockfd c)%Z
        then remove Z.eq_dec (sockfd c) (open_fds w) else open_fds w)
  /\ events w'
     = events w ++ (if (0 <=? sockfd c)%Z then [EvClose (sockfd c)] else []).
Proof.
  unfold disconnect_from_server. cbn [sockfd set_is_connected].
  destruct (0 <=? sockfd c)%Z eqn:E; cbn.
  - repeat split; lia.
  - apply Z.leb_gt in E. rewrite app_nil_r. repeat split; assumption.
Qed.

(** X4.  [disconnect_from_server] marks the client disconnected and, when
    the client holds a descriptor, closes it and forgets it: afterwards
    the descriptor field is negative and that descriptor is not open.  A
    second call changes neither the client nor the world. *)
Theorem disconnect_idempotent :
  forall (c : IotcRelayClient) (w : World),
    let '(c', w') := disconnect_from_server c w in
    is_connected c' = false
    /\ (sockfd c' < 0)%Z
    /\ ((0 <= sockfd c)%Z -> ~ In (sockfd c) (open_fds w'))
    /\ ((sockfd c < 0)%Z -> w' = w)
    /\ disconnect_from_server c' w' = (c', w').
Proof.
  intros c w. unfold disconnect_from_server. cbn [sockfd set_is_connected].
  destruct (0 <=? sockfd c)%Z eqn:E; cbn.
  - apply Z.leb_le in E. repeat split; try lia. intros _. apply remove_In.
  - pose proof E as E'. apply Z.leb_gt in E'. rewrite E.
    repeat split; lia.
Qed.


Lemma disconnect_idempotent_witness :
  (sockfd (fst (disconnect_from_server Samples.connected_client
                  Samples.connected_world)) < 0)%Z
  /\ ~ In 3%Z (open_fds (snd (disconnect_from_server Samples.connected_client
                                Samples.connected_world))).
Proof.
  generalize (disconnect_idempotent Samples.connected_client
                Samples.connected_world).
  destruct (disconnect_from_server Samples.connected_client
              Samples.connected_world) as [c' w'].
  intros (_ & H0 & H & _). split; [exact H0|]. apply H. cbn. lia.
Defined.

(** X3.  A client that is created and destroyed without having been
    started makes no system call that the world records: nothing is
    closed, no thread is cancelled, and the world is as it was. *)
Theorem create_then_destroy :
  forall (path id : cstr) (callback : bool) (data : Z) (w : World),
    exists c,
      iotc_relay_client_create true (Some path) (Some id) callback data
      = Some c
      /\ iotc_relay_client_destroy (Some c) w = w
      /\ iotc_relay_client_stop (Some c) w = (Some c, w).
Proof.
  intros path id callback data w. eexists. split; [reflexivity|].
  split; reflexivity.
Qed.

(** X5.  After [stop] the client is not running and not connected, its
    descriptor field is negative, and the descriptor it held is closed;
    no other descriptor is touched and nothing is sent.  The threads that
    were created are cancelled.  Stopping again leaves the client as it
    is and the same descriptors open. *)
Theorem stop_closes_the_connection :
  forall (c : IotcRelayClient) (w : World),
    exists c' w',
      iotc_relay_client_stop (Some c) w = (Some c', w')
      /\ is_running c' = false /\ is_connected c' = false
      /\ (sockfd c' < 0)%Z
      /\ open_fds w'
         = (if (0 <=? sockfd c)%Z
            then remove Z.eq_dec (sockfd c) (open_fds w) else open_fds w)
      /\ events w'
         = events w
           ++ (if (0 <=? sockfd c)%Z then [EvClose (sockfd c)] else [])
           ++ (if receive_thread c then [EvCancel true] else [])
           ++ (if reconnect_thread c then [EvCancel false] else [])
      /\ fst (iotc_relay_client_stop (Some c') w') = Some c'
      /\ open_fds (snd (iotc_relay_client_stop (Some c') w')) = open_fds w'.
Proof.
  intros [sp cid fd conn run rt rct cb ud rd] w.
  unfold iotc_relay_client_stop, disconnect_from_server.
  cbn [sockfd set_is_connected set_is_running receive_thread
       reconnect_thread].
  destruct (0 <=? fd)%Z eqn:E; destruct rt, rct;
    eexists; eexists; (split; [reflexivity|]);
    cbn; rewrite ?E; cbn; rewrite <- ?app_assoc, ?app_nil_r;
    repeat split; try reflexivity; try lia;
    apply Z.leb_gt in E; lia.
Qed.

(** ** Connecting and starting *)

Lemma create_json_register_text (id : cstr) :
  create_json_register true id = Some (register_text id).
Proof.
  unfold create_json_register. rewrite snprintf_fits; [reflexivity|].
  rewrite register_text_js, !length_app. cbn. lia.
Qed.

Lemma create_json_telemetry_text (id data : cstr) :
  create_json_telemetry true id data = Some (telemetry_text id data).
Proof.
  unfold create_json_telemetry. rewrite snprintf_fits; [reflexivity|].
  rewrite telemetry_text_js, !length_app. cbn. lia.
Qed.

(** The handshake when the receive thread starts. *)
Lemma after_connect_success (env : ConnEnv) (c : IotcRelayClient) (w : World) :
  os_pthread_create env = true ->
  after_connect env c w
  = (IOTC_RELAY_SUCCESS,
     set_receive_thread true
       (set_is_connected
          (negb (os_malloc env)
           || (os_send env =? Z.of_nat (strlen (register_text (client_id c))))%Z)
          c),
     if os_malloc env
     then emit (EvSend (sockfd c) (register_text (client_id c))) w else w).
Proof.
  intros Ht. unfold after_connect. rewrite Ht.
  destruct (os_malloc env); cbn [negb orb].
  - cbn [client_id set_is_connected]. rewrite create_json_register_text.
    unfold send_message. cbn [sockfd set_is_connected].
    destruct (Z.eqb_spec (os_send env)
                (Z.of_nat (strlen (register_text (client_id c))))) as [E|E].
    + replace (os_send env <? 0)%Z with false
        by (symmetry; apply Z.ltb_ge; lia).
      reflexivity.
    + rewrite orb_true_r. reflexivity.
  - reflexivity.
Qed.

Lemma connect_result_success (env : ConnEnv) (c : IotcRelayClient) (w : World) :
  fst (fst (connect_to_server env c w)) = IOTC_RELAY_SUCCESS
  <-> os_socket env <> None /\ connect_step_fails env c = false
      /\ os_pthread_create env = true.
Proof.
  unfold connect_to_server, connect_step_fails.
  destruct (os_socket env) as [fd|]; cbn [sys_socket].
  - assert (A : forall c0 w0,
               fst (fst (after_connect env c0 w0)) = IOTC_RELAY_SUCCESS
               <-> os_pthread_create env = true).
    { intros c0 w0. destruct (os_pthread_create env) eqn:Et.
      - rewrite after_connect_success by exact Et. cbn. tauto.
      - unfold after_connect. rewrite Et.
        destruct (match create_json_register (os_malloc env)
                          (client_id (set_is_connected true c0)) with
                  | Some reg_msg =>
                      let '(_, c1, w1) :=
                        send_message (os_send env)
                          (set_is_connected true c0) reg_msg w0 in (c1, w1)
                  | None => (set_is_connected true c0, w0)
                  end) as [c1 w1].
        destruct (disconnect_from_server c1 w1). cbn.
        split; [discriminate|discriminate]. }
    destruct (parse_tcp_target (socket_path c) 256) as [[host port]|];
      cbn [sockfd set_sockfd]; rewrite fd_not_negative.
    + destruct (negb (os_inet_pton env) && negb (os_gethostbyname env));
        cbn [orb].
      * cbn. split; [discriminate|]. intros (_ & H & _). discriminate.
      * destruct (os_connect env); cbn [negb].
        -- rewrite A. split; [intros H|intros (_ & _ & H)]; try exact H.
           repeat split; [discriminate|exact H].
        -- cbn. split; [discriminate|]. intros (_ & H & _). discriminate.
    + destruct (os_connect env); cbn [negb].
      * rewrite A. split; [intros H|intros (_ & _ & H)]; try exact H.
        repeat split; [discriminate|exact H].
      * cbn. split; [discriminate|]. intros (_ & H & _). discriminate.
  - destruct (parse_tcp_target (socket_path c) 256) as [[host port]|]; cbn;
      (split; [discriminate|]); intros (H & _); congruence.
Qed.

Lemma connect_success_state (env : ConnEnv) (c : IotcRelayClient) (w : World)
  (fd : nat) :
  os_socket env = Some fd -> connect_step_fails env c = false ->
  os_pthread_create env = true ->
  connect_to_server env c w
  = (IOTC_RELAY_SUCCESS,
     set_receive_thread true
       (set_is_connected
          (negb (os_malloc env)
           || (os_send env =? Z.of_nat (strlen (register_text (client_id c))))%Z)
          (set_sockfd (Z.of_nat fd) c)),
     let w' :=
       emit (EvConnect (Z.of_nat fd) (target_of (socket_path c)))
         {| open_fds := Z.of_nat fd :: open_fds w; events := events w |} in
     if os_malloc env
     then emit (EvSend (Z.of_nat fd) (register_text (client_id c))) w'
     else w').
Proof.
  intros Hs Hf Ht. unfold connect_to_server, connect_step_fails, target_of in *.
  rewrite Hs. cbn [sys_socket].
  destruct (parse_tcp_target (socket_path c) 256) as [[host port]|];
    cbn [sockfd set_sockfd socket_path]; rewrite fd_not_negative.
  - apply orb_false_iff in Hf. destruct Hf as [Hr Hc]. rewrite Hr, Hc.
    now rewrite after_connect_success by exact Ht.
  - rewrite Hf. now rewrite after_connect_success by exact Ht.
Qed.

(** X6.  [connect_to_server] succeeds exactly when [socket()] gives a
    descriptor, the address resolves and [connect] is accepted, and the
    receive thread starts.  The client then holds the new descriptor,
    which is open; what went out is the connection attempt followed, when
    the message could be allocated, by one register envelope for the
    client's identifier.  Success does not mean connected: the client is
    marked connected only if that envelope was written whole (or could not
    be allocated); after a short or failed write the call still returns
    success, with the client marked disconnected and the descriptor open. *)
Theorem connect_success_handshake :
  forall (env : ConnEnv) (c : IotcRelayClient) (w : World),
    (fst (fst (connect_to_server env c w)) = IOTC_RELAY_SUCCESS
     <-> os_socket env <> None /\ connect_step_fails env c = false
         /\ os_pthread_create env = true)
    /\ (forall fd,
          os_socket env = Some fd ->
          fst (fst (connect_to_server env c w)) = IOTC_RELAY_SUCCESS ->
          let '(_, c', w') := connect_to_server env c w in
          sockfd c' = Z.of_nat fd
          /\ open_fds w' = Z.of_nat fd :: open_fds w
          /\ receive_thread c' = true
          /\ is_running c' = is_running c
          /\ (is_connected c' = true
              <-> os_malloc env = false
                  \/ os_send env
                     = Z.of_nat (strlen (register_text (client_id c))))
          /\ events w'
             = events w
               ++ EvConnect (Z.of_nat fd) (target_of (socket_path c))
                  :: (if os_malloc env
                      then [EvSend (Z.of_nat fd)
                              (register_text (client_id c))]
                      else [])).
Proof.
  intros env c w. split; [apply connect_result_success|].
  intros fd Hs Hr. apply connect_result_success in Hr.
  destruct Hr as (_ & Hf & Ht).
  rewrite (connect_success_state env c w fd Hs Hf Ht).
  cbn [sockfd set_receive_thread set_is_connected set_sockfd receive_thread
       is_running is_connected].
  repeat apply conj; try reflexivity.
  - destruct (os_malloc env); reflexivity.
  - destruct (os_malloc env); cbn [negb orb].
    + rewrite Z.eqb_eq. intros H; now right.
    + intros _; now left.
  - intros [H|H]; [now rewrite H|]. apply Z.eqb_eq in H. rewrite H.
    apply orb_true_r.
  - destruct (os_malloc env); cbn; rewrite <- ?app_assoc; reflexivity.
Qed.

Lemma connect_success_handshake_witness :
  let '(_, c', w') :=
    connect_to_server (Samples.all_fine 3 10) Samples.fresh_client
      Samples.empty_world in
  sockfd c' = 3%Z /\ open_fds w' = [3%Z] /\ is_connected c' = false.
Proof.
  generalize (proj2 (connect_success_handshake (Samples.all_fine 3 10)
                       Samples.fresh_client Samples.empty_world)
                3 eq_refl eq_refl).
  destruct (connect_to_server (Samples.all_fine 3 10) Samples.fresh_client
              Samples.empty_world) as [[r c'] w'].
  intros (H1 & H2 & _ & _ & H5 & _). repeat split; [exact H1|exact H2|].
  destruct (is_connected c'); [|reflexivity].
  destruct (proj1 H5 eq_refl) as [H|H]; [discriminate H|].
  vm_compute in H. discriminate H.
Defined.

(** What no connection attempt changes. *)
Lemma connect_keeps_configuration (env : ConnEnv) (c : IotcRelayClient)
  (w : World) :
  let c' := snd (fst (connect_to_server env c w)) in
  is_running c' = is_running c /\ socket_path c' = socket_path c
  /\ client_id c' = client_id c /\ command_callback c' = command_callback c
  /\ user_data c' = user_data c /\ reconnect_thread c' = reconnect_thread c.
Proof.
  destruct c as [sp cid fd conn run rt rct cb ud rd].
  unfold connect_to_server, after_connect, send_message,
    disconnect_from_server, create_json_register.
  cbn [socket_path client_id sockfd set_sockfd set_is_connected].
  destruct (parse_tcp_target sp 256) as [[host port]|];
    destruct (os_socket env) as [n|]; cbn [sys_socket];
    rewrite ?fd_not_negative; try (cbn; tauto);
    destruct (negb (os_inet_pton env) && negb (os_gethostbyname env));
    try (cbn; tauto);
    destruct (os_connect env); try (cbn; tauto);
    destruct (os_malloc env);
    try destruct ((os_send env <? 0)%Z || _);
    destruct (os_pthread_create env); cbn; rewrite ?fd_valid; cbn; tauto.
Qed.

(** X7.  [start] on a client marks it running and reports success exactly
    when the reconnect thread could be created, whatever became of the
    first connection attempt.  When the thread cannot be created it
    reports a Socket error and marks the client stopped, and the
    connection that the first attempt may have opened is neither closed
    nor marked disconnected. *)
Theorem start_result_ignores_connect :
  forall (env : ConnEnv) (thread_ok : bool) (c : IotcRelayClient)
         (w : World),
    exists c',
      iotc_relay_client_start env thread_ok (Some c) w
      = ((if thread_ok then IOTC_RELAY_SUCCESS else IOTC_RELAY_ERROR_SOCKET),
         Some c', snd (connect_to_server env (set_is_running true c) w))
      /\ is_running c' = thread_ok
      /\ sockfd c'
         = sockfd (snd (fst (connect_to_server env (set_is_running true c) w)))
      /\ is_connected c'
         = is_connected
             (snd (fst (connect_to_server env (set_is_running true c) w)))
      /\ (forall fd,
            thread_ok = false ->
            os_socket env = Some fd ->
            connect_step_fails env c = false ->
            os_pthread_create env = true ->
            os_send env = Z.of_nat (strlen (register_text (client_id c))) ->
            is_connected c' = true /\ sockfd c' = Z.of_nat fd
            /\ open_fds (snd (connect_to_server env (set_is_running true c) w))
               = Z.of_nat fd :: open_fds w).
Proof.
  intros env thread_ok c w.
  exists (if thread_ok
          then set_reconnect_thread true
                 (snd (fst (connect_to_server env (set_is_running true c) w)))
          else set_is_running false
                 (snd (fst (connect_to_server env (set_is_running true c) w)))).
  repeat apply conj.
  - unfold iotc_relay_client_start.
    destruct (connect_to_server env (set_is_running true c) w) as [[r c0] w0].
    destruct thread_ok; reflexivity.
  - destruct thread_ok; cbn [is_running set_reconnect_thread set_is_running];
      [|reflexivity].
    apply (connect_keeps_configuration env (set_is_running true c) w).
  - destruct thread_ok; reflexivity.
  - destruct thread_ok; reflexivity.
  - intros fd -> Hs Hf Ht Hsend.
    rewrite (connect_success_state env (set_is_running true c) w fd Hs Hf Ht).
    cbn [fst snd is_connected sockfd set_is_running set_receive_thread
         set_is_connected set_sockfd client_id].
    rewrite Hsend, Z.eqb_refl, orb_true_r.
    destruct (os_malloc env); repeat split; reflexivity.
Qed.

Lemma start_result_ignores_connect_witness :
  fst (fst (iotc_relay_client_start
              (Samples.all_fine 3
                 (Z.of_nat (strlen (register_text (lit "abc")))))
              false (Some Samples.fresh_client) Samples.empty_world))
  = IOTC_RELAY_ERROR_SOCKET
  /\ open_fds (snd (connect_to_server
                      (Samples.all_fine 3
                         (Z.of_nat (strlen (register_text (lit "abc")))))
                      (set_is_running true Samples.fresh_client)
                      Samples.empty_world))
     = [3%Z].
Proof.
  destruct (start_result_ignores_connect
              (Samples.all_fine 3
                 (Z.of_nat (strlen (register_text (lit "abc")))))
              false Samples.fresh_client Samples.empty_world)
    as (c' & E & _ & _ & _ & H).
  split; [now rewrite E|].
  apply (H 3); reflexivity.
Defined.

(** ** Sending telemetry *)

(** X8.  [sendTelemetry] returns one of five codes.  It returns success
    exactly when handle and payload are present, the client is connected,
    the envelope could be allocated and [send] wrote all of it; then the
    client is unchanged and the world has one more event, the write of
    the telemetry envelope for the client's identifier on its descriptor.
    On every code but the Send error, client and world are untouched, and
    the JSON error means that the allocation failed. *)
Theorem send_telemetry_outcomes :
  forall (malloc_ok : bool) (sent : Z) (client : option IotcRelayClient)
         (json : option cstr) (w : World),
    let '(r, client', w') :=
      iotc_relay_client_send_telemetry malloc_ok sent client json w in
    (r = IOTC_RELAY_SUCCESS \/ r = IOTC_RELAY_ERROR_SEND
     \/ r = IOTC_RELAY_ERROR_JSON \/ r = IOTC_RELAY_ERROR_DISCONNECTED
     \/ r = IOTC_RELAY_ERROR_INVALID_PARAM)
    /\ (r = IOTC_RELAY_SUCCESS
        <-> exists c j,
            client = Some c /\ json = Some j /\ is_connected c = true
            /\ malloc_ok = true
            /\ sent = Z.of_nat (strlen (telemetry_text (client_id c) j)))
    /\ (r = IOTC_RELAY_SUCCESS ->
        client' = client
        /\ exists c j,
            client = Some c /\ json = Some j
            /\ w' = emit (EvSend (sockfd c) (telemetry_text (client_id c) j)) w)
    /\ (r <> IOTC_RELAY_SUCCESS -> r <> IOTC_RELAY_ERROR_SEND ->
        client' = client /\ w' = w)
    /\ (r = IOTC_RELAY_ERROR_JSON -> malloc_ok = false).
Proof.
  intros malloc_ok sent client json w.
  unfold iotc_relay_client_send_telemetry.
  destruct client as [c|], json as [j|].
  2-4: repeat apply conj; try tauto; try discriminate;
    intros (? & ? & H1 & H2 & _); discriminate.
  destruct (is_connected c) eqn:Ec; cbn [negb].
  - destruct malloc_ok.
    + rewrite create_json_telemetry_text. unfold send_message.
      destruct (Z.eqb_spec sent
                  (Z.of_nat (strlen (telemetry_text (client_id c) j))))
        as [E|E].
      * replace (sent <? 0)%Z with false by (symmetry; apply Z.ltb_ge; lia).
        cbn [orb negb]. repeat apply conj; try tauto; try discriminate.
        -- intros _. exists c, j. auto.
        -- intros _. split; [reflexivity|]. exists c, j. auto.
      * rewrite orb_true_r. repeat apply conj; try tauto; try discriminate.
        intros (c0 & j0 & H1 & H2 & _ & _ & H5).
        injection H1 as <-. injection H2 as <-. contradiction.
    + cbn. repeat apply conj; try tauto; try discriminate.
      intros (? & ? & _ & _ & _ & H & _). discriminate H.
  - repeat apply conj; try tauto; try discriminate.
    intros (c0 & j0 & H1 & _ & H3 & _). injection H1 as <-. congruence.
Qed.

Lemma send_telemetry_outcomes_witness :
  snd (iotc_relay_client_send_telemetry true
         (Z.of_nat (strlen (telemetry_text (lit "abc") (lit "{}"))))
         (Some Samples.connected_client) (Some (lit "{}"))
         Samples.connected_world)
  = emit (EvSend 3 (telemetry_text (lit "abc") (lit "{}")))
      Samples.connected_world.
Proof.
  generalize (send_telemetry_outcomes true
                (Z.of_nat (strlen (telemetry_text (lit "abc") (lit "{}"))))
                (Some Samples.connected_client) (Some (lit "{}"))
                Samples.connected_world).
  destruct (iotc_relay_client_send_telemetry true
              (Z.of_nat (strlen (telemetry_text (lit "abc") (lit "{}"))))
              (Some Samples.connected_client) (Some (lit "{}"))
              Samples.connected_world) as [[r c'] w'].
  intros (_ & H2 & H3 & _).
  assert (R : r = IOTC_RELAY_SUCCESS).
  { apply H2. exists Samples.connected_client, (lit "{}").
    repeat split; reflexivity. }
  destruct (H3 R) as (_ & c & j & Hc & Hj & Hw).
  injection Hc as <-. injection Hj as <-. exact Hw.
Defined.

(** X9.  From creation to the first telemetry: when the system lets
    everything through, what the client has done on its descriptor is to
    connect to the resolved address, write the register envelope and
    write the telemetry envelope, both for the identifier it stored (the
    first 63 bytes of the one given), in that order and nothing else. *)
Theorem first_messages_of_a_session :
  forall (path id data : cstr) (callback : bool) (user : Z) (fd : nat),
    let env :=
      Samples.all_fine fd
        (Z.of_nat (strlen (register_text (firstn 63 id)))) in
    exists c0 c1 w1 c2 w2,
      iotc_relay_client_create true (Some path) (Some id) callback user
      = Some c0
      /\ iotc_relay_client_start env true (Some c0) Samples.empty_world
         = (IOTC_RELAY_SUCCESS, Some c1, w1)
      /\ is_connected c1 = true
      /\ iotc_relay_client_send_telemetry true
           (Z.of_nat (strlen (telemetry_text (firstn 63 id) data)))
           (Some c1) (Some data) w1
         = (IOTC_RELAY_SUCCESS, Some c2, w2)
      /\ c2 = c1
      /\ open_fds w2 = [Z.of_nat fd]
      /\ events w2
         = [EvConnect (Z.of_nat fd) (target_of (firstn 255 path));
            EvSend (Z.of_nat fd) (register_text (firstn 63 id));
            EvSend (Z.of_nat fd) (telemetry_text (firstn 63 id) data)].
Proof.
  intros path id data callback user fd env.
  eexists. eexists. eexists. eexists. eexists.
  split; [reflexivity|].
  unfold iotc_relay_client_start.
  rewrite (connect_success_state env _ Samples.empty_world fd eq_refl);
    [|unfold connect_step_fails;
      cbn [socket_path set_is_running];
      destruct (parse_tcp_target _ 256); reflexivity
     |reflexivity].
  cbn [os_malloc env Samples.all_fine os_send negb orb client_id
       set_is_running strncpy].
  change (IOTC_RELAY_MAX_CLIENT_ID - 1) with 63.
  rewrite Z.eqb_refl.
  split; [reflexivity|]. split; [reflexivity|].
  unfold iotc_relay_client_send_telemetry.
  cbn [is_connected set_reconnect_thread set_receive_thread set_is_connected
       negb client_id set_sockfd set_is_running].
  rewrite create_json_telemetry_text. unfold send_message.
  rewrite Z.eqb_refl.
  replace (Z.of_nat (strlen (telemetry_text (firstn 63 id) data)) <? 0)%Z
    with false by (symmetry; apply Z.ltb_ge; lia).
  cbn [orb negb].
  split; [reflexivity|]. split; [reflexivity|]. split; reflexivity.
Qed.

(** ** Decoding what the client encodes *)

Lemma find_type_first (t x : cstr) :
  ~ In DQ t ->
  find_json_value (js "{'type':'" ++ t ++ DQ :: x) (lit "type") = Some t.
Proof.
  intros Ht.
  apply (find_json_value_quoted _ _ (lit "{") t x);
    [cbn; lia | reflexivity | reflexivity | exact Ht].
Qed.

Lemma envelope_shapes (id data : cstr) :
  register_text id
  = js "{'type':'" ++ lit "register" ++ DQ
       :: js ",'client_id':'" ++ id ++ DQ :: lit "}" ++ [NL]
  /\ telemetry_text id data
     = js "{'type':'" ++ lit "telemetry" ++ DQ
          :: js ",'client_id':'" ++ id ++ DQ
             :: js ",'data':" ++ data ++ lit "}" ++ [NL].
Proof.
  unfold register_text, telemetry_text, quoted. cbn.
  rewrite <- !app_assoc. split; reflexivity.
Qed.

Lemma not_in_literal (c : ascii) (s : cstr) :
  strchr s c = None -> ~ In c s.
Proof. apply strchr_None. Qed.

(** X10.  The envelopes the client writes are read back by its own
    decoder: for an identifier without double quote, [find_json_value]
    finds the type [register] or [telemetry] and the identifier itself in
    the register and telemetry envelopes, whatever the telemetry data. *)
Theorem envelopes_decode :
  forall id data : cstr,
    ~ In DQ id ->
    find_json_value (register_text id) (lit "type") = Some (lit "register")
    /\ find_json_value (register_text id) (lit "client_id") = Some id
    /\ find_json_value (telemetry_text id data) (lit "type")
       = Some (lit "telemetry")
    /\ find_json_value (telemetry_text id data) (lit "client_id") = Some id.
Proof.
  intros id data Hid.
  destruct (envelope_shapes id data) as [R T].
  repeat apply conj.
  - rewrite R. apply find_type_first. now apply not_in_literal.
  - apply (find_json_value_quoted _ _ (js "{'type':'register',") id
             (lit "}" ++ [NL])); [cbn; lia | reflexivity | | exact Hid].
    rewrite R. reflexivity.
  - rewrite T. apply find_type_first. now apply not_in_literal.
  - apply (find_json_value_quoted _ _ (js "{'type':'telemetry',") id
             (js ",'data':" ++ data ++ lit "}" ++ [NL]));
      [cbn; lia | reflexivity | | exact Hid].
    rewrite T. reflexivity.
Qed.

Lemma envelopes_decode_witness :
  find_json_value (telemetry_text (lit "abc") (js "{'temperature':25.5}"))
    (lit "client_id") = Some (lit "abc").
Proof.
  apply (envelopes_decode (lit "abc") (js "{'temperature':25.5}")).
  apply not_in_literal. reflexivity.
Defined.

(** X11.  A line that opens with a type other than [command] is never
    dispatched, whatever follows; in particular the client's own register
    and telemetry envelopes, should the relay send them back, invoke no
    callback, for every identifier and every data. *)
Theorem other_types_are_not_dispatched :
  forall (c : IotcRelayClient),
    (forall t x : cstr,
        ~ In DQ t -> t <> lit "command" ->
        handle_server_message c (js "{'type':'" ++ t ++ DQ :: x) = [])
    /\ (forall id data : cstr,
          handle_server_message c (telemetry_text id data) = []
          /\ handle_server_message c (register_text id) = []).
Proof.
  intros c.
  assert (G : forall t x : cstr,
             ~ In DQ t -> t <> lit "command" ->
             handle_server_message c (js "{'type':'" ++ t ++ DQ :: x) = []).
  { intros t x Ht Hn. unfold handle_server_message.
    rewrite (find_type_first t x Ht).
    destruct (streq t (lit "command")) eqn:E; [|reflexivity].
    apply streq_true_iff in E. contradiction. }
  split; [exact G|].
  intros id data. destruct (envelope_shapes id data) as [R T].
  rewrite R, T. split; apply G; try discriminate;
    now apply not_in_literal.
Qed.

Lemma other_types_are_not_dispatched_witness :
  handle_server_message Samples.connected_client
    (js "{'type':'ack','id':7}") = [].
Proof.
  apply (proj1 (other_types_are_not_dispatched Samples.connected_client)
           (lit "ack") (js ",'id':7}")).
  - apply not_in_literal. reflexivity.
  - discriminate.
Defined.

(** ** What [find_json_value] returns *)

Lemma strstr_Some (h n : cstr) (k : nat) :
  strstr h n = Some k ->
  exists pre post, h = pre ++ n ++ post /\ strlen pre = k.
Proof.
  revert k; induction h as [|a h IH]; intros k; cbn [strstr].
  - destruct (starts_with n []) eqn:E; [|discriminate].
    intros H; injection H as <-. apply starts_with_iff in E.
    destruct E as [r Hr]. exists [], r. split; [exact Hr|reflexivity].
  - destruct (starts_with n (a :: h)) eqn:E.
    + intros H; injection H as <-. apply starts_with_iff in E.
      destruct E as [r Hr]. exists [], r. split; [exact Hr|reflexivity].
    + destruct (strstr h n) as [j|]; [|discriminate].
      cbn. intros H; injection H as <-.
      destruct (IH j eq_refl) as (pre & post & -> & <-).
      exists (a :: pre), post. split; reflexivity.
Qed.

Lemma skip_blanks_suffix (s : cstr) :
  exists lead, s = lead ++ skip_blanks s
               /\ Forall (fun c => blank c = true) lead.
Proof.
  induction s as [|a s (lead & IH & F)]; [exists []; split; [reflexivity|constructor]|].
  cbn [skip_blanks]. destruct (Ascii.eqb a SPACE || Ascii.eqb a TAB) eqn:E.
  - exists (a :: lead). split; [cbn; now f_equal|]. constructor; assumption.
  - exists []. split; [reflexivity|constructor].
Qed.

Lemma rtrim_prefix (s : cstr) : exists t, s = rtrim s ++ t.
Proof.
  induction s as [|a s [t IH]]; [exists []; reflexivity|].
  cbn [rtrim]. destruct (rtrim s) as [|b r] eqn:E.
  - destruct (Ascii.eqb a SPACE || Ascii.eqb a TAB).
    + exists (a :: s). reflexivity.
    + exists s. reflexivity.
  - exists t. cbn. f_equal. exact IH.
Qed.

Lemma trim_value_prefix (v : cstr) : exists t, v = trim_value v ++ t.
Proof.
  destruct v as [|a v]; [exists []; reflexivity|].
  destruct (rtrim_prefix v) as [t H]. exists t. cbn. f_equal. exact H.
Qed.

(** X12.  Whatever [find_json_value] returns was read in the line: the
    line is some text, the key between quotes and a colon, blanks and
    perhaps an opening quote, the value, and a rest.  The decoder copies
    and never builds a value of its own. *)
Theorem find_json_value_is_a_piece :
  forall (json key v : cstr),
    find_json_value json key = Some v ->
    exists pre lead post,
      json = pre ++ snprintf 128 (quoted key ++ lit ":") ++ lead ++ v ++ post
      /\ (Forall (fun c => blank c = true) lead
          \/ exists blanks, lead = blanks ++ [DQ]
                            /\ Forall (fun c => blank c = true) blanks).
Proof.
  intros json key v. unfold find_json_value.
  set (search := snprintf 128 (quoted key ++ lit ":")).
  destruct (strstr json search) as [off|] eqn:Es; [|discriminate].
  destruct (strstr_Some _ _ _ Es) as (pre & rest & -> & <-).
  replace (skipn (strlen pre + strlen search) (pre ++ search ++ rest))
    with rest
    by (rewrite app_assoc, skipn_app, <- length_app, skipn_all, Nat.sub_diag;
        reflexivity).
  destruct (skip_blanks_suffix rest) as (lead & Hr & Fl).
  assert (U : forall start,
             rest = lead ++ start ->
             Some (trim_value (strncpy start (token_len start))) = Some v ->
             exists pre0 lead0 post,
               pre ++ search ++ rest = pre0 ++ search ++ lead0 ++ v ++ post
               /\ (Forall (fun c => blank c = true) lead0
                   \/ exists blanks, lead0 = blanks ++ [DQ]
                        /\ Forall (fun c => blank c = true) blanks)).
  { intros start Hs Hv. injection Hv as <-.
    destruct (trim_value_prefix (strncpy start (token_len start))) as [t Ht].
    destruct (firstn_prefix _ (token_len start) start) as [u Hu].
    exists pre, lead, (t ++ u). split; [|now left].
    rewrite Hs. do 3 f_equal. rewrite app_assoc, <- Ht. exact Hu. }
  destruct (skip_blanks rest) as [|a start'] eqn:Estart.
  - apply U. exact Hr.
  - destruct (Ascii.eqb a DQ) eqn:Ea; [|apply U; exact Hr].
    apply Ascii.eqb_eq in Ea; subst a.
    destruct (strchr start' DQ) as [len|] eqn:Ec; [|discriminate].
    intros H; injection H as <-.
    destruct (firstn_prefix _ len start') as [u Hu].
    exists pre, (lead ++ [DQ]), u. split.
    + rewrite Hr. do 2 f_equal. rewrite <- app_assoc. cbn. do 2 f_equal.
      exact Hu.
    + right. exists lead. split; [reflexivity|exact Fl].
Qed.

Lemma find_json_value_is_a_piece_witness :
  exists pre lead post,
    Samples.command_frame (lit "Command_A") (lit "42")
    = pre ++ snprintf 128 (quoted (lit "parameters") ++ lit ":")
      ++ lead ++ lit "42" ++ post
    /\ (Forall (fun c => blank c = true) lead
        \/ exists blanks, lead = blanks ++ [DQ]
                          /\ Forall (fun c => blank c = true) blanks).
Proof.
  apply (find_json_value_is_a_piece
           (Samples.command_frame (lit "Command_A") (lit "42"))
           (lit "parameters") (lit "42")).
  reflexivity.
Defined.

Lemma blank_not_end (c : ascii) : blank c = true -> ends_token c = false.
Proof.
  unfold blank, ends_token. intros H. apply orb_true_iff in H.
  destruct H as [H|H]; apply Ascii.eqb_eq in H; subst c; reflexivity.
Qed.

Lemma skip_blanks_lead (lead s : cstr) (a : ascii) :
  Forall (fun c => blank c = true) lead -> blank a = false ->
  skip_blanks (lead ++ a :: s) = a :: s.
Proof.
  intros F Ha. induction F as [|b lead Hb _ IH]; cbn [app skip_blanks].
  - unfold blank in Ha. now rewrite Ha.
  - unfold blank in Hb. now rewrite Hb.
Qed.

Lemma token_len_app (tok rest : cstr) :
  Forall (fun c => ends_token c = false) tok ->
  match rest with [] => True | t :: _ => ends_token t = true end ->
  token_len (tok ++ rest) = strlen tok.
Proof.
  intros F Hr. induction F as [|b tok Hb _ IH]; cbn [app token_len List.length].
  - destruct rest as [|t rest]; [reflexivity|].
    cbn [token_len]. unfold ends_token in Hr. now rewrite Hr.
  - unfold ends_token in Hb. rewrite Hb. now rewrite IH.
Qed.

Lemma rtrim_blanks (trail : cstr) :
  Forall (fun c => blank c = true) trail -> rtrim trail = [].
Proof.
  induction 1 as [|b trail Hb _ IH]; [reflexivity|].
  cbn [rtrim]. rewrite IH. unfold blank in Hb. now rewrite Hb.
Qed.

Lemma rtrim_keep (tok trail : cstr) (d : ascii) :
  Forall (fun c => blank c = true) trail ->
  blank (last tok d) = false ->
  rtrim (tok ++ trail) = tok.
Proof.
  intros F. induction tok as [|b tok IH]; intros H.
  - now apply rtrim_blanks.
  - cbn [app rtrim]. destruct tok as [|c t].
    + cbn [app]. rewrite rtrim_blanks by exact F.
      cbn [last] in H. unfold blank in H. now rewrite H.
    + rewrite IH by exact H. reflexivity.
Qed.

(** X13.  A value that is not quoted is returned without the blanks
    around it: when the first occurrence of the key is followed by blanks,
    a token, blanks and then a comma, a closing brace, a newline or the
    end of the line, [find_json_value] returns exactly the token.  (The
    token starts with neither a blank nor a quote, does not end with a
    blank and holds no comma, brace or newline.) *)
Theorem find_json_value_unquoted :
  forall (json key pre lead tok trail rest : cstr) (a : ascii),
    strlen key + 3 < 128 ->
    strstr json (quoted key ++ lit ":") = Some (strlen pre) ->
    json = pre ++ (quoted key ++ lit ":") ++ lead ++ (a :: tok) ++ trail ++ rest ->
    Forall (fun c => blank c = true) lead ->
    Forall (fun c => blank c = true) trail ->
    blank a = false -> a <> DQ ->
    Forall (fun c => ends_token c = false) (a :: tok) ->
    blank (last tok a) = false ->
    match rest with [] => True | t :: _ => ends_token t = true end ->
    find_json_value json key = Some (a :: tok).
Proof.
  intros json key pre lead tok trail rest a Hk Hs Hj Fl Ft Ha Hq Ftok Hlast Hr.
  assert (K : skipn (strlen pre + strlen (quoted key ++ lit ":")) json
              = lead ++ (a :: tok) ++ trail ++ rest).
  { rewrite Hj, app_assoc, <- length_app, skipn_app, skipn_all, Nat.sub_diag.
    reflexivity. }
  unfold find_json_value.
  rewrite snprintf_fits by (rewrite search_length; lia).
  rewrite Hs, K.
  change (lead ++ (a :: tok) ++ trail ++ rest)
    with (lead ++ a :: tok ++ trail ++ rest).
  rewrite (skip_blanks_lead lead _ a Fl Ha).
  apply Ascii.eqb_neq in Hq. rewrite Hq.
  change (a :: tok ++ trail ++ rest) with ((a :: tok) ++ trail ++ rest).
  rewrite app_assoc, token_len_app; [| |exact Hr].
  - unfold strncpy. rewrite firstn_app, firstn_all, Nat.sub_diag.
    cbn [firstn]. rewrite app_nil_r. cbn [app trim_value].
    now rewrite (rtrim_keep tok trail a Ft Hlast).
  - apply Forall_app. split; [exact Ftok|].
    eapply Forall_impl; [|exact Ft]. apply blank_not_end.
Qed.

Lemma find_json_value_unquoted_witness :
  find_json_value (js "{'count':   42  ,'unit':'s'}") (lit "count")
  = Some (lit "42").
Proof.
  apply (find_json_value_unquoted _ (lit "count") (lit "{") (lit "   ")
           (lit "2") (lit "  ") (js ",'unit':'s'}") "4"%char);
    try reflexivity; try discriminate; try (cbn; lia);
    repeat constructor.
Defined.

(** ** Addresses with a decimal port *)






(** ** The receive thread on any input *)

Lemma handle_at_most_one (c : IotcRelayClient) (line : cstr) :
  List.length (handle_server_message c line) <= 1
  /\ forallb is_callback (handle_server_message c line) = true.
Proof.
  unfold handle_server_message.
  destruct (find_json_value line (lit "type")) as [t|]; [|cbn; auto].
  destruct (streq t (lit "command")); [|cbn; auto].
  destruct (find_json_value line (lit "command_name")); [|cbn; auto].
  destruct (command_callback c); cbn; auto.
Qed.

Lemma dispatch_callbacks (c : IotcRelayClient) (lines : list cstr) :
  List.length (dispatch c lines) <= List.length lines
  /\ forallb is_callback (dispatch c lines) = true.
Proof.
  induction lines as [|l lines [IH1 IH2]]; [cbn; auto|].
  unfold dispatch in *. cbn [flat_map].
  destruct (handle_at_most_one c l) as [H1 H2].
  rewrite length_app, forallb_app, H2, IH2. cbn [List.length] in *.
  split; [lia|reflexivity].
Qed.

(** The buffer after a read: within the capacity, and without newline. *)
Lemma receive_chunk_buffer (mb : cstr) (buffer : list ascii) :
  strlen mb <= MESSAGE_BUFFER_SIZE - 1 ->
  strlen (snd (receive_chunk mb buffer)) <= MESSAGE_BUFFER_SIZE - 1
  /\ ~ In NL (snd (receive_chunk mb buffer)).
Proof.
  intros H. unfold receive_chunk, strncat. rewrite frame_loop_frames.
  split; [|apply frames_rest_no_newline].
  match goal with |- context [Spec.frames ?s] =>
    destruct (frames_lengths s) as [_ L];
    assert (K : strlen s <= MESSAGE_BUFFER_SIZE - 1)
      by (rewrite length_app, length_firstn; lia)
  end.
  lia.
Qed.

(** X15.  Whatever the reads bring, the receive thread leaves the client
    as it found it or with only the connection flag cleared, opens and
    closes no descriptor, and adds nothing to the world but callback
    invocations.  Its buffer, once within the capacity and free of
    newline, stays so: the room computed for [strncat] is never
    negative. *)
Theorem receive_thread_only_clears_the_flag :
  forall (reads : list (option (list ascii))) (c : IotcRelayClient)
         (mb : cstr) (w : World),
    let '(c', mb', w') := receive_thread_func reads c mb w in
    (c' = c \/ c' = set_is_connected false c)
    /\ open_fds w' = open_fds w
    /\ (exists calls,
           events w' = events w ++ calls
           /\ forallb is_callback calls = true)
    /\ (strlen mb <= MESSAGE_BUFFER_SIZE - 1 -> ~ In NL mb ->
        strlen mb' <= MESSAGE_BUFFER_SIZE - 1 /\ ~ In NL mb').
Proof.
  induction reads as [|r reads IH]; intros c mb w.
  - cbn. repeat split; auto. exists []. now rewrite app_nil_r.
  - cbn [receive_thread_func].
    assert (Stop : forall c0,
               (c0 = c \/ c0 = set_is_connected false c) ->
               (c0 = c \/ c0 = set_is_connected false c)
               /\ open_fds w = open_fds w
               /\ (exists calls,
                      events w = events w ++ calls
                      /\ forallb is_callback calls = true)
               /\ (strlen mb <= MESSAGE_BUFFER_SIZE - 1 -> ~ In NL mb ->
                   strlen mb <= MESSAGE_BUFFER_SIZE - 1 /\ ~ In NL mb)).
    { intros c0 H. repeat split; auto. exists []. now rewrite app_nil_r. }
    destruct (is_running c && is_connected c); [|apply Stop; now left].
    destruct r as [[|a buffer]|]; try (apply Stop; now right).
    destruct (receive_chunk mb (a :: buffer)) as [lines mb1] eqn:E.
    specialize (IH c mb1 (emit_all (dispatch c lines) w)).
    destruct (receive_thread_func reads c mb1 (emit_all (dispatch c lines) w))
      as [[c' mb'] w'].
    destruct IH as (H1 & H2 & (calls & H3 & H4) & H5).
    repeat apply conj.
    + exact H1.
    + exact H2.
    + exists (dispatch c lines ++ calls). split.
      * rewrite H3. cbn. now rewrite app_assoc.
      * rewrite forallb_app, H4. now rewrite (proj2 (dispatch_callbacks c lines)).
    + intros Hl _. pose proof (receive_chunk_buffer mb (a :: buffer) Hl) as B.
      rewrite E in B. cbn [snd] in B. now apply H5.
Qed.

Lemma receive_thread_only_clears_the_flag_witness :
  strlen (snd (fst (receive_thread_func
                      [Some (lit "abc"); Some (lit "de" ++ [NL] ++ lit "f")]
                      Samples.connected_client [] Samples.connected_world)))
  <= MESSAGE_BUFFER_SIZE - 1.
Proof.
  generalize (receive_thread_only_clears_the_flag
                [Some (lit "abc"); Some (lit "de" ++ [NL] ++ lit "f")]
                Samples.connected_client [] Samples.connected_world).
  destruct (receive_thread_func
              [Some (lit "abc"); Some (lit "de" ++ [NL] ++ lit "f")]
              Samples.connected_client [] Samples.connected_world)
    as [[c' mb'] w'].
  intros (_ & _ & _ & H). apply H; [cbn; lia|intros []].
Defined.

(** X16.  A NUL byte in a read ends what is taken from it: the bytes
    after the NUL are lost, and a read that begins with NUL leaves the
    buffer as it is and dispatches nothing. *)
Theorem nul_byte_cuts_the_read :
  forall (mb before after : list ascii),
    ~ In NUL before ->
    receive_chunk mb (before ++ NUL :: after) = receive_chunk mb before
    /\ (~ In NL mb -> receive_chunk mb (NUL :: after) = ([], mb)).
Proof.
  intros mb before after Hn. unfold receive_chunk. split.
  - rewrite (c_str_app before (NUL :: after) Hn), (c_str_no_nul before Hn).
    cbn [c_str]. rewrite Ascii.eqb_refl. now rewrite app_nil_r.
  - intros Hmb. cbn [c_str]. rewrite Ascii.eqb_refl. unfold strncat.
    rewrite firstn_nil, app_nil_r, frame_loop_frames.
    now apply frames_no_newline.
Qed.

Lemma nul_byte_cuts_the_read_witness :
  receive_chunk [] (lit "ab" ++ NUL :: Samples.command_frame (lit "x") (lit "y")
                    ++ [NL])
  = receive_chunk [] (lit "ab").
Proof.
  apply (nul_byte_cuts_the_read [] (lit "ab")
           (Samples.command_frame (lit "x") (lit "y") ++ [NL])).
  apply not_in_literal. reflexivity.
Defined.

(** *** Callbacks and newlines *)

Lemma newlines_app (a b : list ascii) :
  newlines (a ++ b) = newlines a + newlines b.
Proof. apply count_occ_app. Qed.

Lemma newlines_none (s : list ascii) : ~ In NL s -> newlines s = 0.
Proof. apply count_occ_not_In. Qed.

Lemma newlines_firstn (n : nat) (s : list ascii) :
  newlines (firstn n s) <= newlines s.
Proof.
  rewrite <- (firstn_skipn n s) at 2. rewrite newlines_app. lia.
Qed.

Lemma newlines_c_str (s : list ascii) : newlines (c_str s) <= newlines s.
Proof.
  induction s as [|a s IH]; [cbn; lia|]. cbn [c_str].
  unfold newlines in *.
  destruct (Ascii.eqb a NUL).
  - cbn [count_occ]. destruct (ascii_dec a NL); lia.
  - cbn [count_occ]. destruct (ascii_dec a NL); lia.
Qed.

Lemma frames_count (s : list ascii) :
  List.length (fst (Spec.frames s)) = newlines s.
Proof.
  induction s as [|a s IH]; [reflexivity|].
  cbn [Spec.frames]. destruct (Spec.frames s) as [fs r]. cbn [fst] in IH.
  unfold newlines in *. cbn [count_occ].
  destruct (Ascii.eqb a NL) eqn:E.
  - apply Ascii.eqb_eq in E. destruct (ascii_dec a NL); [|contradiction].
    cbn. now rewrite IH.
  - apply Ascii.eqb_neq in E. destruct (ascii_dec a NL); [contradiction|].
    rewrite <- IH. destruct fs; reflexivity.
Qed.

(** X17.  The callback is never invoked more often than newlines were
    received: whatever the reads bring, bytes dropped at the capacity or
    after a NUL included, the invocations added to the world number at
    most the newlines in the bytes read. *)
Theorem callbacks_bounded_by_newlines :
  forall (reads : list (option (list ascii))) (c : IotcRelayClient)
         (mb : cstr) (w : World),
    ~ In NL mb ->
    List.length (events (snd (receive_thread_func reads c mb w)))
    <= List.length (events w) + newlines (received reads).
Proof.
  induction reads as [|r reads IH]; intros c mb w Hmb.
  - cbn [receive_thread_func snd]. lia.
  - cbn [receive_thread_func].
    destruct (is_running c && is_connected c); [|cbn [snd]; lia].
    destruct r as [[|a buffer]|]; [cbn [snd]; lia| |cbn [snd]; lia].
    destruct (receive_chunk mb (a :: buffer)) as [lines mb1] eqn:E.
    assert (L : List.length lines <= newlines (a :: buffer)).
    { replace lines with (fst (receive_chunk mb (a :: buffer)))
        by now rewrite E.
      unfold receive_chunk, strncat.
      rewrite frame_loop_frames, frames_count, newlines_app.
      rewrite (newlines_none mb Hmb).
      etransitivity; [apply newlines_firstn|apply newlines_c_str]. }
    assert (N : ~ In NL mb1).
    { replace mb1 with (snd (receive_chunk mb (a :: buffer)))
        by now rewrite E.
      unfold receive_chunk. rewrite frame_loop_frames.
      apply frames_rest_no_newline. }
    specialize (IH c mb1 (emit_all (dispatch c lines) w) N).
    cbn [received]. rewrite newlines_app.
    cbn [emit_all events] in IH. rewrite length_app in IH.
    pose proof (proj1 (dispatch_callbacks c lines)). lia.
Qed.

Lemma callbacks_bounded_by_newlines_witness :
  List.length
    (events (snd (receive_thread_func
                    [Some (Samples.command_frame (lit "a") (lit "b") ++ [NL])]
                    Samples.connected_client [] Samples.connected_world)))
  <= List.length (events Samples.connected_world)
     + newlines (received
                   [Some (Samples.command_frame (lit "a") (lit "b") ++ [NL])]).
Proof.
  apply (callbacks_bounded_by_newlines
           [Some (Samples.command_frame (lit "a") (lit "b") ++ [NL])]
           Samples.connected_client [] Samples.connected_world).
  intros [].
Defined.

(** ** The reconnect thread *)

(** A failed attempt of a disconnected client. *)
Lemma connect_failure_state (env : ConnEnv) (c : IotcRelayClient) (w : World) :
  (forall fd, os_socket env = Some fd -> ~ In (Z.of_nat fd) (open_fds w)) ->
  attempt_fails env (socket_path c) = true ->
  is_connected c = false ->
  sockfd (snd (fst (connect_to_server env c w))) = (-1)%Z
  /\ is_connected (snd (fst (connect_to_server env c w))) = false
  /\ open_fds (snd (connect_to_server env c w)) = open_fds w.
Proof.
  intros Hfresh Hfail Hc. unfold attempt_fails in Hfail.
  unfold connect_to_server.
  destruct (os_socket env) as [fd|] eqn:Es; cbn [sys_socket].
  - specialize (Hfresh fd eq_refl).
    assert (A : forall c0 w0,
               sockfd c0 = Z.of_nat fd ->
               open_fds w0 = Z.of_nat fd :: open_fds w ->
               os_pthread_create env = false ->
               sockfd (snd (fst (after_connect env c0 w0))) = (-1)%Z
               /\ is_connected (snd (fst (after_connect env c0 w0))) = false
               /\ open_fds (snd (after_connect env c0 w0)) = open_fds w).
    { intros c0 w0 H0 H1 Ht.
      pose proof (after_connect_outcome env c0 w0 fd H0) as O.
      destruct (after_connect env c0 w0) as [[r c'] w']. rewrite Ht in O.
      destruct O as (_ & O1 & O2 & O3). cbn [fst snd].
      rewrite O3, H1, remove_fresh by assumption. auto. }
    destruct (parse_tcp_target (socket_path c) 256) as [[host port]|];
      cbn [sockfd set_sockfd]; rewrite fd_not_negative.
    + destruct (negb (os_inet_pton env) && negb (os_gethostbyname env)).
      * cbn [fst snd sockfd set_sockfd is_connected sys_close open_fds].
        rewrite remove_fresh by assumption. auto.
      * destruct (os_connect env); cbn [negb orb] in *.
        -- apply A; try reflexivity. now apply negb_true_iff.
        -- cbn [fst snd sockfd set_sockfd is_connected sys_close open_fds
                emit].
           rewrite remove_fresh by assumption. auto.
    + destruct (os_connect env); cbn [negb orb] in *.
      * apply A; try reflexivity. now apply negb_true_iff.
      * cbn [fst snd sockfd set_sockfd is_connected sys_close open_fds emit].
        rewrite remove_fresh by assumption. auto.
  - destruct (parse_tcp_target (socket_path c) 256) as [[host port]|];
      cbn; auto.
Qed.

Lemma reconnect_idle (turns : list ConnEnv) (c : IotcRelayClient) (w : World) :
  is_running c = false \/ is_connected c = true ->
  reconnect_thread_func turns c w = (c, w).
Proof.
  intros H. induction turns as [|env turns IH]; [reflexivity|].
  cbn [reconnect_thread_func]. destruct H as [H|H].
  - now rewrite H.
  - destruct (is_running c); [|reflexivity]. rewrite H. cbn [negb]. exact IH.
Qed.

Lemma reconnect_failures (path : cstr) (fds : list Z) (turns : list ConnEnv) :
  Forall (fun env =>
            (forall fd, os_socket env = Some fd -> ~ In (Z.of_nat fd) fds)
            /\ attempt_fails env path = true) turns ->
  forall (c : IotcRelayClient) (w : World),
    socket_path c = path -> open_fds w = fds ->
    is_running c = true -> is_connected c = false ->
    let '(c', w') := reconnect_thread_func turns c w in
    socket_path c' = path /\ client_id c' = client_id c
    /\ open_fds w' = fds
    /\ is_running c' = true /\ is_connected c' = false
    /\ (turns <> [] -> sockfd c' = (-1)%Z).
Proof.
  induction 1 as [|env turns [Hfresh Hfail] _ IH]; intros c w Hp Hw Hr Hc.
  - cbn. repeat split; auto. congruence.
  - cbn [reconnect_thread_func]. rewrite Hr, Hc. cbn [negb].
    rewrite <- Hw in Hfresh. rewrite <- Hp in Hfail.
    destruct (connect_failure_state env c w Hfresh Hfail Hc) as (S1 & S2 & S3).
    destruct (connect_keeps_configuration env c w) as (K1 & K2 & K3 & _).
    destruct (connect_to_server env c w) as [[r c1] w1].
    cbn [fst snd] in *.
    specialize (IH c1 w1).
    destruct (reconnect_thread_func turns c1 w1) as [c' w'] eqn:E.
    destruct IH as (I1 & I2 & I3 & I4 & I5 & I6); try congruence.
    repeat split; try congruence.
    intros _. destruct turns as [|env' turns'].
    + cbn in E. injection E as <- <-. exact S1.
    + apply I6. discriminate.
Qed.

(** X18.  The reconnect thread leaves a client alone that is connected or
    not running.  On a running, disconnected client it tries once per
    turn: however many attempts fail, no descriptor stays open behind
    them, the descriptor field ends at -1 and the client stays running and
    disconnected; the first attempt that succeeds (the register envelope
    written whole) connects the client on the new descriptor, and the
    turns after it attempt nothing.  ([socket()] is taken to answer with
    descriptors that were not open.) *)
Theorem reconnect_retries_until_connected :
  forall (failed : list ConnEnv) (c : IotcRelayClient) (w : World),
    (forall turns,
        is_running c = false \/ is_connected c = true ->
        reconnect_thread_func turns c w = (c, w))
    /\ (is_running c = true -> is_connected c = false ->
        Forall (fun env =>
                  (forall fd, os_socket env = Some fd ->
                              ~ In (Z.of_nat fd) (open_fds w))
                  /\ attempt_fails env (socket_path c) = true) failed ->
        (let '(c', w') := reconnect_thread_func failed c w in
         open_fds w' = open_fds w
         /\ is_running c' = true /\ is_connected c' = false
         /\ (failed <> [] -> sockfd c' = (-1)%Z))
        /\ (forall env later fd,
              os_socket env = Some fd ->
              attempt_fails env (socket_path c) = false ->
              os_send env
              = Z.of_nat (strlen (register_text (client_id c))) ->
              let '(c', w') :=
                reconnect_thread_func (failed ++ env :: later) c w in
              is_connected c' = true /\ sockfd c' = Z.of_nat fd
              /\ open_fds w' = Z.of_nat fd :: open_fds w)).
Proof.
  intros failed c w. split; [intros turns; apply reconnect_idle|].
  intros Hr Hc Hf.
  pose proof (reconnect_failures (socket_path c) (open_fds w) failed Hf c w
                eq_refl eq_refl Hr Hc) as F.
  split.
  - destruct (reconnect_thread_func failed c w) as [c' w']. tauto.
  - intros env later fd Hs Ha Hsend.
    assert (G : forall turns c0 w0,
               reconnect_thread_func (turns ++ env :: later) c0 w0
               = (let '(c1, w1) := reconnect_thread_func turns c0 w0 in
                  reconnect_thread_func (env :: later) c1 w1)).
    { induction turns as [|e turns IHt]; intros c0 w0; [reflexivity|].
      cbn [app reconnect_thread_func].
      destruct (is_running c0) eqn:R0.
      - destruct (negb (is_connected c0)).
        + destruct (connect_to_server e c0 w0) as [[r1 c1] w1]. apply IHt.
        + apply IHt.
      - cbn [reconnect_thread_func]. now rewrite R0. }
    rewrite G. destruct (reconnect_thread_func failed c w) as [c1 w1].
    destruct F as (F1 & F2 & F3 & F4 & F5 & _).
    cbn [reconnect_thread_func]. rewrite F4, F5. cbn [negb].
    assert (Hstep : connect_step_fails env c1 = false
                    /\ os_pthread_create env = true).
    { unfold attempt_fails in Ha. rewrite Hs, <- F1 in Ha.
      apply orb_false_iff in Ha. destruct Ha as [Ha1 Ha2].
      split; [exact Ha1|now apply negb_false_iff]. }
    destruct Hstep as [Hstep Ht].
    rewrite (connect_success_state env c1 w1 fd Hs Hstep Ht).
    rewrite reconnect_idle.
    + cbn [is_connected sockfd set_receive_thread set_is_connected
           set_sockfd]. rewrite F2, Hsend, Z.eqb_refl, orb_true_r.
      destruct (os_malloc env); cbn [open_fds emit]; rewrite F3; auto.
    + right. cbn [is_connected set_receive_thread set_is_connected].
      rewrite F2, Hsend, Z.eqb_refl. apply orb_true_r.
Qed.

Lemma reconnect_retries_until_connected_witness :
  let '(c', w') :=
    reconnect_thread_func
      ([Samples.no_socket; Samples.refused 3]
       ++ Samples.all_fine 3
            (Z.of_nat (strlen (register_text (lit "abc"))))
          :: [Samples.no_socket])
      (set_is_running true Samples.fresh_client) Samples.empty_world in
  is_connected c' = true /\ sockfd c' = Z.of_nat 3
  /\ open_fds w' = Z.of_nat 3 :: open_fds Samples.empty_world.
Proof.
  assert (F : Forall
                (fun env =>
                   (forall fd, os_socket env = Some fd ->
                               ~ In (Z.of_nat fd)
                                   (open_fds Samples.empty_world))
                   /\ attempt_fails env
                        (socket_path
                           (set_is_running true Samples.fresh_client))
                      = true)
                [Samples.no_socket; Samples.refused 3]).
  { repeat constructor; try reflexivity; intros fd _ []. }
  exact (proj2 (proj2 (reconnect_retries_until_connected
                         [Samples.no_socket; Samples.refused 3]
                         (set_is_running true Samples.fresh_client)
                         Samples.empty_world)
                  eq_refl eq_refl F)
           (Samples.all_fine 3
              (Z.of_nat (strlen (register_text (lit "abc")))))
           [Samples.no_socket] 3 eq_refl eq_refl eq_refl).
Defined.
